(** * UMI bridge: the per-device session of [Bridge.py]

    A shallow embedding of [DeviceSession] and [UMIBridge] and the
    properties of the bridge's session handling that follow from the code.

    The program is asyncio code.  One device's session object is mutated by
    that device's receive loop only, so its methods are embedded as
    sequential computations in a state-and-exception monad.  Everything the
    code calls but does not define (the websocket, the LiveKit room, the
    audio source) is an environment whose answers are read from [Env] and
    whose calls are recorded, in order, in a trace. *)

From Stdlib Require Import ZArith Lia Bool.
From Stdlib Require Import Strings.Byte.
From stdpp Require Import base option list strings gmap.

Local Open Scope string_scope.
Local Open Scope Z_scope.
Local Open Scope list_scope.

(** ** Values read from and written to the wire *)

#[local] Set Warnings "-register-all".

(** The result of [json.loads]; Python's [None] is [JNull]. *)
Inductive json : Type :=
| JNull
| JBool (b : bool)
| JNum (n : Z)
| JStr (s : string)
| JArr (items : list json)
| JObj (items : list (string * json)).

(** [dict.get(key)] on the items of a dict: [None] when the key is absent. *)
Fixpoint dict_get (key : string) (items : list (string * json)) : json :=
  match items with
  | [] => JNull
  | (k, v) :: rest => if String.eqb k key then v else dict_get key rest
  end.

(** [v == 'literal'] for a value that came out of [json.loads]. *)
Definition str_eq (v : json) (lit : string) : bool :=
  match v with
  | JStr s => String.eqb s lit
  | _ => false
  end.

Definition is_None (v : json) : bool :=
  match v with
  | JNull => true
  | _ => false
  end.

(** A message yielded by [async for message in websocket]: [bytes] or [str].
    A text message is kept as what [json.loads] makes of it, [None] when it
    raises [JSONDecodeError]. *)
Inductive Message : Type :=
| Binary (data : list byte)
| Text (parsed : option json).

(** ** 16-bit PCM, as numpy reads and writes it *)

Definition SAMPLE_RATE : Z := 16000.
Definition CHANNELS : Z := 1.

Definition byte_to_Z (b : byte) : Z := Z.of_N (Byte.to_N b).

Definition byte_of_Z (z : Z) : byte :=
  match Byte.of_N (Z.to_N z) with
  | Some b => b
  | None => x00
  end.

(** One little-endian [int16] from its two bytes. *)
Definition int16_of_bytes (lo hi : byte) : Z :=
  let u := byte_to_Z lo + 256 * byte_to_Z hi in
  if u <? 32768 then u else u - 65536.

Definition int16_to_bytes (v : Z) : list byte :=
  let u := v mod 65536 in
  [byte_of_Z (u mod 256); byte_of_Z (u / 256)].

(** [np.frombuffer(data, dtype=np.int16)]: raises [ValueError] when the
    buffer is not a whole number of 2-byte elements. *)
Fixpoint frombuffer_int16 (data : list byte) : option (list Z) :=
  match data with
  | [] => Some []
  | [_] => None
  | lo :: hi :: rest =>
      match frombuffer_int16 rest with
      | Some samples => Some (int16_of_bytes lo hi :: samples)
      | None => None
      end
  end.

(** [samples.tobytes()] *)
Definition tobytes (samples : list Z) : list byte :=
  flat_map int16_to_bytes samples.

(** [samples[::2]] *)
Fixpoint slice_step2 {A : Type} (l : list A) : list A :=
  match l with
  | [] => []
  | x :: rest =>
      x :: match rest with
           | [] => []
           | _ :: rest' => slice_step2 rest'
           end
  end.

(** [rtc.AudioFrame]: interleaved 16-bit samples, [data] as bytes. *)
Record AudioFrame : Type := mkAudioFrame {
  data : list byte;
  sample_rate : Z;
  num_channels : Z;
  samples_per_channel : Z
}.

(** [rtc.AudioFrame.create(rate, channels, n)] followed by
    [np.frombuffer(frame.data, dtype=np.int16)[:] = pcm]. *)
Definition AudioFrame_create_filled (rate channels : Z) (pcm : list Z) : AudioFrame :=
  {| data := tobytes pcm;
     sample_rate := rate;
     num_channels := channels;
     samples_per_channel := Z.of_nat (length pcm) |}.

(** ** The session object *)

(** Objects made by [rtc.Room()] and [rtc.AudioSource(..)] are known by a
    handle that is fresh at each construction. *)
Definition Handle : Type := nat.

Record DeviceSession : Type := mkDeviceSession {
  device_id : Z;
  session_id : json;
  room : option Handle;
  audio_source : option Handle;
  is_active : bool;
  audio_frames_sent : Z
}.

(** [DeviceSession.__init__] *)
Definition DeviceSession_init (device_id : Z) : DeviceSession :=
  {| device_id := device_id;
     session_id := JNull;
     room := None;
     audio_source := None;
     is_active := false;
     audio_frames_sent := 0 |}.

Definition set_session_id (v : json) (s : DeviceSession) : DeviceSession :=
  {| device_id := device_id s; session_id := v; room := room s;
     audio_source := audio_source s; is_active := is_active s;
     audio_frames_sent := audio_frames_sent s |}.

Definition set_room (v : option Handle) (s : DeviceSession) : DeviceSession :=
  {| device_id := device_id s; session_id := session_id s; room := v;
     audio_source := audio_source s; is_active := is_active s;
     audio_frames_sent := audio_frames_sent s |}.

Definition set_audio_source (v : option Handle) (s : DeviceSession) : DeviceSession :=
  {| device_id := device_id s; session_id := session_id s; room := room s;
     audio_source := v; is_active := is_active s;
     audio_frames_sent := audio_frames_sent s |}.

Definition set_is_active (v : bool) (s : DeviceSession) : DeviceSession :=
  {| device_id := device_id s; session_id := session_id s; room := room s;
     audio_source := audio_source s; is_active := v;
     audio_frames_sent := audio_frames_sent s |}.

Definition set_audio_frames_sent (v : Z) (s : DeviceSession) : DeviceSession :=
  {| device_id := device_id s; session_id := session_id s; room := room s;
     audio_source := audio_source s; is_active := is_active s;
     audio_frames_sent := v |}.

(** ** The environment and the trace *)

(** [api.AccessToken(..).with_identity(p).with_name(p).with_grants(room=r)]:
    the grant is kept as the two values it is made from.  The room name is
    [f"umi-{session_id}"], kept as the session id after the prefix; the
    identity is [f"device-{device_id}"], kept as the device id. *)
Record Token : Type := mkToken {
  grant_room : json;
  grant_identity : Z
}.

Inductive Level : Type := INFO | WARNING | ERROR.

(** The log lines of the file, one constructor per [logger] call. *)
Inductive LogMsg : Type :=
| StartingSession (sid : json)
| ConnectedToRoom (sid : json)
| ConnectionFailed
| PublishedMicTrack
| EndingSession (sid : json)
| Streaming (frames : Z)
| ErrorProcessingAudio
| StartingPlayback
| WebSocketClosedDuringPlayback
| ErrorForwardingAudio
| AgentFinishedSpeaking
| ErrorSendingMessage
| DeviceConnected (id : Z)
| DeviceDisconnected (id : Z)
| ErrorInLoop
| CleanedUp (id : Z)
| DeviceInfo (id : json)
| InvalidJSON.

Inductive Payload : Type :=
| TextFrame (msg : json)
| BinaryFrame (bytes : list byte).

(** How one [websocket.send] call ends: it returns, it raises
    [ConnectionClosed], or it raises something else. *)
Inductive SendOutcome : Type := Sent | SendClosed | SendFailed.

(** One call on the outside world, with how it ended. *)
Inductive Event : Type :=
| Log (lvl : Level) (m : LogMsg)
| WsSend (p : Payload) (o : SendOutcome)
| RoomConnect (r : Handle) (url : string) (tok : Token) (ok : bool)
| PublishTrack (r src : Handle) (ok : bool)
| RoomDisconnect (r : Handle)
| CaptureFrame (src : Handle) (frame : AudioFrame) (ok : bool).

(** The answers of the outside world: each call of a kind takes the next
    answer of that kind; a call finding no answer left succeeds.
    [room.disconnect()] has no entry: it returns. *)
Record Env : Type := mkEnv {
  connect_results : list bool;
  publish_results : list bool;
  capture_results : list bool;
  send_results : list SendOutcome
}.

(** [UMIBridge]: the registry [self.devices].  The code only ever tests a
    key and inserts or deletes one, so the value kept under a key is the
    session as it was registered. *)
Record UMIBridge : Type := mkUMIBridge {
  devices : gmap Z DeviceSession
}.

(** The state one device's handler runs in: its session object, the bridge,
    the outside world, the calls made so far (newest first) and the next
    unused handle. *)
Record Sys : Type := mkSys {
  session : DeviceSession;
  bridge : UMIBridge;
  env : Env;
  trace : list Event;
  next_handle : Handle
}.

Definition with_session (f : DeviceSession -> DeviceSession) (st : Sys) : Sys :=
  {| session := f (session st); bridge := bridge st; env := env st;
     trace := trace st; next_handle := next_handle st |}.

Definition with_devices (f : gmap Z DeviceSession -> gmap Z DeviceSession)
    (st : Sys) : Sys :=
  {| session := session st; bridge := {| devices := f (devices (bridge st)) |};
     env := env st; trace := trace st; next_handle := next_handle st |}.

Definition with_env (e : Env) (st : Sys) : Sys :=
  {| session := session st; bridge := bridge st; env := e; trace := trace st;
     next_handle := next_handle st |}.

Definition with_event (e : Event) (st : Sys) : Sys :=
  {| session := session st; bridge := bridge st; env := env st;
     trace := e :: trace st; next_handle := next_handle st |}.

(** ** Computations that may raise *)

Inductive exn : Type :=
| ConnectionClosed
| JSONDecodeError
| ValueError
| AttributeError
| ConnectError
| PublishError
| CaptureError
| StreamError
| SocketError.

Inductive result (A : Type) : Type :=
| Ok (a : A)
| Raise (e : exn).
Arguments Ok {A} a.
Arguments Raise {A} e.

(** A raise keeps the state reached so far: Python does not roll back. *)
Definition M (A : Type) : Type := Sys -> result A * Sys.

Definition ret {A : Type} (a : A) : M A := fun st => (Ok a, st).

Definition raise {A : Type} (e : exn) : M A := fun st => (Raise e, st).

Definition bind {A B : Type} (m : M A) (k : A -> M B) : M B :=
  fun st =>
    match m st with
    | (Ok a, st') => k a st'
    | (Raise e, st') => (Raise e, st')
    end.

Notation "'do' x <- m ; k" := (bind m (fun x => k))
  (at level 10, x name, m at level 100, k at level 200, only parsing).

(** [try: body except <the exceptions h takes>: h e]. *)
Definition try_except {A : Type} (body : M A) (h : exn -> option (M A)) : M A :=
  fun st =>
    match body st with
    | (Ok a, st') => (Ok a, st')
    | (Raise e, st') =>
        match h e with
        | Some handler => handler st'
        | None => (Raise e, st')
        end
    end.

(** [try: body finally: cleanup]. *)
Definition try_finally {A : Type} (body : M A) (cleanup : M unit) : M A :=
  fun st =>
    match body st with
    | (r, st') =>
        match cleanup st' with
        | (Ok _, st'') => (r, st'')
        | (Raise e, st'') => (Raise e, st'')
        end
    end.

Definition get_self : M DeviceSession := fun st => (Ok (session st), st).

Definition update_self (f : DeviceSession -> DeviceSession) : M unit :=
  fun st => (Ok tt, with_session f st).

Definition update_devices (f : gmap Z DeviceSession -> gmap Z DeviceSession)
  : M unit :=
  fun st => (Ok tt, with_devices f st).

Definition get_devices : M (gmap Z DeviceSession) :=
  fun st => (Ok (devices (bridge st)), st).

Definition emit (e : Event) : M unit := fun st => (Ok tt, with_event e st).

Definition logger (lvl : Level) (m : LogMsg) : M unit := emit (Log lvl m).

Definition fresh_handle : M Handle :=
  fun st => (Ok (next_handle st),
             {| session := session st; bridge := bridge st; env := env st;
                trace := trace st; next_handle := S (next_handle st) |}).

Definition next_connect : M bool :=
  fun st =>
    let e := env st in
    match connect_results e with
    | [] => (Ok true, st)
    | b :: rest =>
        (Ok b, with_env {| connect_results := rest;
                           publish_results := publish_results e;
                           capture_results := capture_results e;
                           send_results := send_results e |} st)
    end.

Definition next_publish : M bool :=
  fun st =>
    let e := env st in
    match publish_results e with
    | [] => (Ok true, st)
    | b :: rest =>
        (Ok b, with_env {| connect_results := connect_results e;
                           publish_results := rest;
                           capture_results := capture_results e;
                           send_results := send_results e |} st)
    end.

Definition next_capture : M bool :=
  fun st =>
    let e := env st in
    match capture_results e with
    | [] => (Ok true, st)
    | b :: rest =>
        (Ok b, with_env {| connect_results := connect_results e;
                           publish_results := publish_results e;
                           capture_results := rest;
                           send_results := send_results e |} st)
    end.

Definition next_send : M SendOutcome :=
  fun st =>
    let e := env st in
    match send_results e with
    | [] => (Ok Sent, st)
    | o :: rest =>
        (Ok o, with_env {| connect_results := connect_results e;
                           publish_results := publish_results e;
                           capture_results := capture_results e;
                           send_results := rest |} st)
    end.

(** ** The calls on the outside world *)

(** [await websocket.send(payload)] *)
Definition websocket_send (p : Payload) : M unit :=
  do o <- next_send;
  do _ <- emit (WsSend p o);
  match o with
  | Sent => ret tt
  | SendClosed => raise ConnectionClosed
  | SendFailed => raise SocketError
  end.

(** [await room.connect(url, token)] *)
Definition room_connect (r : Handle) (url : string) (tok : Token) : M unit :=
  do ok <- next_connect;
  do _ <- emit (RoomConnect r url tok ok);
  if ok then ret tt else raise ConnectError.

(** [await room.local_participant.publish_track(track, options)] *)
Definition publish_track (r src : Handle) : M unit :=
  do ok <- next_publish;
  do _ <- emit (PublishTrack r src ok);
  if ok then ret tt else raise PublishError.

(** [await room.disconnect()] *)
Definition room_disconnect (r : Handle) : M unit := emit (RoomDisconnect r).

(** [await audio_source.capture_frame(frame)] *)
Definition capture_frame (src : Handle) (frame : AudioFrame) : M unit :=
  do ok <- next_capture;
  do _ <- emit (CaptureFrame src frame ok);
  if ok then ret tt else raise CaptureError.

(** ** [DeviceSession] *)

Definition session_started_msg (sid : json) : json :=
  JObj [("type", JStr "session_started"); ("session_id", sid)].

Definition session_ended_msg (sid : json) (frames : Z) : json :=
  JObj [("type", JStr "session_ended"); ("session_id", sid);
        ("frames_sent", JNum frames)].

Definition ready_msg : json := JObj [("type", JStr "ready")].

Definition agent_speaking_start_msg : json :=
  JObj [("type", JStr "agent_speaking_start")].

Definition agent_speaking_end_msg : json :=
  JObj [("type", JStr "agent_speaking_end")].

(** [except Exception as e]: every exception of [exn] is one. *)
Definition except_Exception {A : Type} (h : exn -> M A) : exn -> option (M A) :=
  fun e => Some (h e).

(** [DeviceSession.send_message]: [json.dumps] then [websocket.send], any
    exception logged and swallowed. *)
Definition send_message (msg : json) : M unit :=
  try_except
    (websocket_send (TextFrame msg))
    (except_Exception (fun _ => logger ERROR ErrorSendingMessage)).

(** [DeviceSession.start_session].  The [track_subscribed] handler that the
    method registers on the room only runs later, on the room's event; it is
    [_forward_agent_audio] below. *)
Definition start_session (sid : json) (livekit_url : string) (token : Token)
  : M Handle :=
  do _ <- update_self (set_session_id sid);
  do _ <- update_self (set_is_active true);
  do _ <- update_self (set_audio_frames_sent 0);
  do _ <- logger INFO (StartingSession sid);
  do r <- fresh_handle;
  do _ <- update_self (set_room (Some r));
  do _ <- try_except
       (do _ <- room_connect r livekit_url token;
        logger INFO (ConnectedToRoom sid))
       (except_Exception (fun e => do _ <- logger ERROR ConnectionFailed; raise e));
  do src <- fresh_handle;
  do _ <- update_self (set_audio_source (Some src));
  do _ <- publish_track r src;
  do _ <- logger INFO PublishedMicTrack;
  do _ <- send_message (session_started_msg sid);
  ret r.

(** [DeviceSession.end_session] *)
Definition end_session : M unit :=
  do self <- get_self;
  if negb (is_active self) then ret tt
  else
    do _ <- logger INFO (EndingSession (session_id self));
    do _ <- update_self (set_is_active false);
    do _ <- match room self with
       | Some r => do _ <- room_disconnect r; update_self (set_room None)
       | None => ret tt
       end;
    do _ <- update_self (set_audio_source None);
    do self <- get_self;
    do _ <- send_message (session_ended_msg (session_id self) (audio_frames_sent self));
    update_self (set_session_id JNull).

(** [DeviceSession.process_audio_chunk] *)
Definition process_audio_chunk (audio_data : list byte) : M unit :=
  do self <- get_self;
  match is_active self, audio_source self with
  | true, Some src =>
      try_except
        (do pcm <- match frombuffer_int16 audio_data with
                   | Some pcm => ret pcm
                   | None => raise ValueError
                   end;
         do _ <- capture_frame src (AudioFrame_create_filled SAMPLE_RATE CHANNELS pcm);
         do _ <- update_self (fun s => set_audio_frames_sent (audio_frames_sent s + 1) s);
         do self <- get_self;
         if audio_frames_sent self mod 33 =? 0
         then logger INFO (Streaming (audio_frames_sent self))
         else ret tt)
        (except_Exception (fun _ => logger ERROR ErrorProcessingAudio))
  | _, _ => ret tt
  end.

(** What [rtc.AudioStream(track)] yields: the frames, then either the end of
    the iteration or an exception. *)
Record Track : Type := mkTrack {
  frames : list AudioFrame;
  stream_raises : bool
}.

(** The bytes one remote frame is forwarded as, [None] when
    [np.frombuffer] raises. *)
Definition playback_payload (frame : AudioFrame) : option (list byte) :=
  match frombuffer_int16 (data frame) with
  | Some samples =>
      Some (tobytes (if num_channels frame =? 2 then slice_step2 samples
                     else samples))
  | None => None
  end.

(** The [async for] of [_forward_agent_audio]; [true] is returned when the
    loop is left by [break]. *)
Fixpoint forward_frames (fs : list AudioFrame) (raises_at_end : bool) : M bool :=
  match fs with
  | [] => if raises_at_end then raise StreamError else ret false
  | frame :: rest =>
      do samples <- match playback_payload frame with
                    | Some bytes => ret bytes
                    | None => raise ValueError
                    end;
      do closed <- try_except
                     (do _ <- websocket_send (BinaryFrame samples); ret false)
                     (fun e => match e with
                               | ConnectionClosed =>
                                   Some (do _ <- logger INFO WebSocketClosedDuringPlayback;
                                         ret true)
                               | _ => None
                               end);
      if closed then ret true else forward_frames rest raises_at_end
  end.

(** [DeviceSession._forward_agent_audio] *)
Definition _forward_agent_audio (track : Track) : M unit :=
  do _ <- logger INFO StartingPlayback;
  do _ <- send_message agent_speaking_start_msg;
  try_finally
    (try_except
       (do _ <- forward_frames (frames track) (stream_raises track); ret tt)
       (except_Exception (fun _ => logger ERROR ErrorForwardingAudio)))
    (do _ <- send_message agent_speaking_end_msg;
     logger INFO AgentFinishedSpeaking).

(** ** [UMIBridge] *)

Definition LIVEKIT_URL : string := "wss://your-project.livekit.cloud".

(** [UMIBridge._create_token(f"umi-{session_id}", f"device-{device_id}")] *)
Definition _create_token (sid : json) (device : Z) : Token :=
  {| grant_room := sid; grant_identity := device |}.

(** [msg.get(key)]: only a dict has [get]. *)
Definition msg_get (msg : json) (key : string) : M json :=
  match msg with
  | JObj items => ret (dict_get key items)
  | _ => raise AttributeError
  end.

(** [UMIBridge._handle_message] *)
Definition _handle_message (message : Message) : M unit :=
  match message with
  | Binary audio => process_audio_chunk audio
  | Text parsed =>
      try_except
        (do msg <- match parsed with
                   | Some msg => ret msg
                   | None => raise JSONDecodeError
                   end;
         do msg_type <- msg_get msg "type";
         if str_eq msg_type "device_info" then
           do device_id_str <- msg_get msg "device_id";
           do _ <- logger INFO (DeviceInfo device_id_str);
           send_message ready_msg
         else if str_eq msg_type "start_session" then
           do sid <- msg_get msg "session_id";
           do self <- get_self;
           do _ <- start_session sid LIVEKIT_URL (_create_token sid (device_id self));
           ret tt
         else if str_eq msg_type "end_session" then
           end_session
         else ret tt)
        (fun e => match e with
                  | JSONDecodeError => Some (logger WARNING InvalidJSON)
                  | _ => None
                  end)
  end.

(** How [async for message in websocket] stops once the messages are
    through: the iteration ends, [ConnectionClosed] is raised, or another
    exception is. *)
Inductive LoopEnd : Type := PeerClosed | ClosedError | IOFault.

(** The [async for] of [handle_device] *)
Fixpoint receive_loop (messages : list Message) (ending : LoopEnd) : M unit :=
  match messages with
  | [] =>
      match ending with
      | PeerClosed => ret tt
      | ClosedError => raise ConnectionClosed
      | IOFault => raise SocketError
      end
  | message :: rest =>
      do _ <- _handle_message message;
      receive_loop rest ending
  end.

(** The [try] of [handle_device] with its two [except] clauses,
    [ConnectionClosed] first. *)
Definition guarded_loop (device_id : Z) (messages : list Message)
    (ending : LoopEnd) : M unit :=
  try_except
    (receive_loop messages ending)
    (fun e => match e with
              | ConnectionClosed =>
                  Some (logger INFO (DeviceDisconnected device_id))
              | _ => Some (logger ERROR ErrorInLoop)
              end).

(** The [finally] of [handle_device] *)
Definition cleanup (device_id : Z) : M unit :=
  do self <- get_self;
  do _ <- (if is_active self then end_session else ret tt);
  do registry <- get_devices;
  do _ <- match registry !! device_id with
          | Some _ => update_devices (delete device_id)
          | None => ret tt
          end;
  logger INFO (CleanedUp device_id).

(** The [try .. except .. finally] of [handle_device] *)
Definition serve_device (device_id : Z) (messages : list Message)
    (ending : LoopEnd) : M unit :=
  try_finally (guarded_loop device_id messages ending) (cleanup device_id).

(** What [handle_device] does once its [session] is made. *)
Definition handle_device_body (device_id : Z) (messages : list Message)
    (ending : LoopEnd) : M unit :=
  do self <- get_self;
  do _ <- update_devices <[device_id := self]>;
  do _ <- logger INFO (DeviceConnected device_id);
  serve_device device_id messages ending.

(** [UMIBridge.handle_device] for the websocket whose [id] is [ws], in a
    bridge [b], with the outside world [e], an empty trace and [h] as the
    next handle. *)
Definition handle_device (b : UMIBridge) (ws : Z) (messages : list Message)
    (ending : LoopEnd) (e : Env) (h : Handle) : result unit * Sys :=
  let device_id := ws in
  let session := DeviceSession_init device_id in
  handle_device_body device_id messages ending
    {| session := session; bridge := b; env := e; trace := [];
       next_handle := h |}.

(** ** Notions the properties are stated with *)

(** The lifecycle of the session as the fields show it between two calls.
    The code keeps no state field: [is_active] is raised first thing in
    [start_session] and dropped first thing in [end_session], and
    [audio_source] is set once the room is connected; frames are ingested
    when both hold. *)
Inductive Lifecycle : Type := Idle | Starting | Active.

Definition lifecycle (s : DeviceSession) : Lifecycle :=
  if is_active s then
    match audio_source s with
    | Some _ => Active
    | None => Starting
    end
  else Idle.

(** The room objects a session refers to. *)
Definition held_rooms (s : DeviceSession) : list Handle :=
  match room s with
  | Some r => [r]
  | None => []
  end.

(** The rooms that are connected after the calls of a trace (newest
    first): a room comes in with a [connect] that succeeded and goes out
    with its [disconnect]. *)
Fixpoint connected_rooms (tr : list Event) : list Handle :=
  match tr with
  | [] => []
  | RoomConnect r _ _ true :: older => r :: connected_rooms older
  | RoomDisconnect r :: older =>
      List.filter (fun r' => negb (Nat.eqb r' r)) (connected_rooms older)
  | _ :: older => connected_rooms older
  end.

(** The calls a [DeviceSession] takes after its creation. *)
Inductive Op : Type :=
| OpStart (sid : json) (livekit_url : string) (token : Token)
| OpEnd
| OpChunk (audio_data : list byte).

Definition run_op (o : Op) : M unit :=
  match o with
  | OpStart sid url tok => do _ <- start_session sid url tok; ret tt
  | OpEnd => end_session
  | OpChunk audio => process_audio_chunk audio
  end.

(** The state after a sequence of calls, each run to its return or raise. *)
Fixpoint run_ops (ops : list Op) (st : Sys) : Sys :=
  match ops with
  | [] => st
  | o :: rest => run_ops rest (run_op o st).2
  end.

(** Every [start_session] of the sequence is called on an idle session. *)
Fixpoint starts_when_idle (ops : list Op) (st : Sys) : Prop :=
  match ops with
  | [] => True
  | o :: rest =>
      match o with
      | OpStart _ _ _ => is_active (session st) = false
      | _ => True
      end /\ starts_when_idle rest (run_op o st).2
  end.

Definition start_has_id (o : Op) : Prop :=
  match o with
  | OpStart sid _ _ => sid <> JNull
  | _ => True
  end.

(** The state [handle_device] starts a session object in. *)
Definition fresh_sys (b : UMIBridge) (device : Z) (e : Env) (h : Handle) : Sys :=
  {| session := DeviceSession_init device; bridge := b; env := e; trace := [];
     next_handle := h |}.


(** The [frames_sent] field of a [session_ended] message handed to
    [websocket.send]. *)
Definition frames_sent_of (e : Event) : option Z :=
  match e with
  | WsSend (TextFrame (JObj items)) _ =>
      if str_eq (dict_get "type" items) "session_ended" then
        match dict_get "frames_sent" items with
        | JNum n => Some n
        | _ => None
        end
      else None
  | _ => None
  end.

(** [websocket.send] calls carrying a text message of type [ty]. *)
Definition is_send_of_type (ty : string) (e : Event) : bool :=
  match e with
  | WsSend (TextFrame (JObj items)) _ => str_eq (dict_get "type" items) ty
  | _ => false
  end.

Definition is_send (e : Event) : bool :=
  match e with
  | WsSend _ _ => true
  | _ => false
  end.

(** The log line that closes the [finally] of [handle_device]. *)
Definition is_cleanup_log (e : Event) : bool :=
  match e with
  | Log _ (CleanedUp _) => true
  | _ => false
  end.

(** The log line [end_session] writes once it is past its guard. *)
Definition is_ending_log (e : Event) : bool :=
  match e with
  | Log _ (EndingSession _) => true
  | _ => false
  end.

Definition is_capture (e : Event) : bool :=
  match e with
  | CaptureFrame _ _ _ => true
  | _ => false
  end.

Definition is_disconnect (e : Event) : bool :=
  match e with
  | RoomDisconnect _ => true
  | _ => false
  end.

Fixpoint count_events (p : Event -> bool) (tr : list Event) : nat :=
  match tr with
  | [] => 0%nat
  | e :: older => ((if p e then 1 else 0) + count_events p older)%nat
  end.

(** The websocket sends of a trace, newest first. *)
Definition sends (tr : list Event) : list Event := List.filter is_send tr.

(** A frame the audio source took. *)
Definition is_forwarded (e : Event) : bool :=
  match e with
  | CaptureFrame _ _ ok => ok
  | _ => false
  end.




(** A condition on the state that a computation keeps, whether it returns
    or raises. *)
Definition preserves {A : Type} (I : Sys -> Prop) (m : M A) : Prop :=
  forall st, I st -> I (m st).2.

(** Two conditions on the fields of a session: an idle session has no
    session id, and it has a room exactly when it is not idle. *)
Definition session_inv (s : DeviceSession) : Prop :=
  (is_active s = false -> session_id s = JNull) /\
  (room s <> None <-> is_active s = true).

(** No room is connected but the one the session holds. *)
Definition rooms_in_hand (st : Sys) : Prop :=
  connected_rooms (trace st) = [] \/
  exists r, room (session st) = Some r /\ connected_rooms (trace st) = [r].

(** A session that is not idle has a session id. *)
Definition identified (s : DeviceSession) : Prop :=
  is_active s = true -> session_id s <> JNull.

(** The state in which the [try] of [handle_device] is entered. *)
Definition loop_entry (b : UMIBridge) (ws : Z) (e : Env) (h : Handle) : Sys :=
  with_event (Log INFO (DeviceConnected ws))
    (with_devices <[ws := DeviceSession_init ws]> (fresh_sys b ws e h)).

(** The state in which the [finally] of [handle_device] is entered. *)
Definition loop_exit (b : UMIBridge) (ws : Z) (messages : list Message)
    (ending : LoopEnd) (e : Env) (h : Handle) : Sys :=
  (guarded_loop ws messages ending (loop_entry b ws e h)).2.

(** The registry is the given one and the cleanup line was not logged. *)
Definition before_cleanup (registry : gmap Z DeviceSession) (st : Sys) : Prop :=
  devices (bridge st) = registry /\
  count_events is_cleanup_log (trace st) = 0%nat.

(** The log lines written by [handle_device] and [_handle_message]
    themselves while the loop runs. *)
Definition loop_log (m : LogMsg) : Prop :=
  match m with
  | DeviceInfo _ | InvalidJSON | DeviceDisconnected _ | ErrorInLoop => True
  | _ => False
  end.

(** Two channels, sample by sample: [L0; R0; L1; R1; ..]. *)
Fixpoint interleave (left right : list Z) : list Z :=
  match left, right with
  | l :: left', r :: right' => l :: r :: interleave left' right'
  | _, _ => []
  end.

Definition int16 (v : Z) : Prop := -32768 <= v < 32768.

(** ** Concrete states and inputs *)

Definition quiet_env : Env := mkEnv [] [] [] [].

(** A session just created. *)
Definition idle_example : Sys := fresh_sys (mkUMIBridge ∅) 7 quiet_env 0%nat.

(** A session that started and has sent five frames. *)
Definition active_example : Sys :=
  {| session := {| device_id := 7; session_id := JStr "abc"; room := Some 0%nat;
                   audio_source := Some 1%nat; is_active := true;
                   audio_frames_sent := 5 |};
     bridge := mkUMIBridge ∅;
     env := quiet_env;
     trace := [];
     next_handle := 2%nat |}.

(** The [start_session] control message for a session id. *)
Definition start_msg (sid : json) : Message :=
  Text (Some (JObj [("type", JStr "start_session"); ("session_id", sid)])).

(** A [start_session] message that carries no [session_id]. *)
Definition start_msg_no_id : Message :=
  Text (Some (JObj [("type", JStr "start_session")])).

(** The state after a device started session ["abc"] and sent one frame. *)
Definition started_example : Sys :=
  (receive_loop [start_msg (JStr "abc"); Binary [x01; x02]] PeerClosed
     idle_example).2.


(** ** Further notions *)

(** The answer the next call of a kind gets from the outside world. *)
Definition next_answer (answers : list bool) : bool :=
  match answers with
  | [] => true
  | b :: _ => b
  end.

Definition next_send_outcome (answers : list SendOutcome) : SendOutcome :=
  match answers with
  | [] => Sent
  | o :: _ => o
  end.

(** What [send_message] logs after a send that ended as [o]. *)
Definition send_error_log (o : SendOutcome) : list Event :=
  match o with
  | Sent => []
  | _ => [Log ERROR ErrorSendingMessage]
  end.

Definition is_object (v : json) : bool :=
  match v with
  | JObj _ => true
  | _ => false
  end.

(** A text message that [_handle_message] takes as [start_session]. *)
Definition is_start_message (m : Message) : bool :=
  match m with
  | Text (Some (JObj items)) =>
      negb (str_eq (dict_get "type" items) "device_info")
      && str_eq (dict_get "type" items) "start_session"
  | _ => false
  end.

(** A call on the room or on its audio source. *)
Definition is_room_call (e : Event) : bool :=
  match e with
  | RoomConnect _ _ _ _ | PublishTrack _ _ _ | RoomDisconnect _
  | CaptureFrame _ _ _ => true
  | _ => false
  end.

(** The frames the audio source took, newest first. *)
Fixpoint captured (tr : list Event) : list AudioFrame :=
  match tr with
  | [] => []
  | CaptureFrame _ frame true :: older => frame :: captured older
  | _ :: older => captured older
  end.

(** The binary payloads handed to [websocket.send], newest first. *)
Fixpoint binary_payloads (tr : list Event) : list (list byte) :=
  match tr with
  | [] => []
  | WsSend (BinaryFrame payload) _ :: older => payload :: binary_payloads older
  | _ :: older => binary_payloads older
  end.

(** The frame [process_audio_chunk] builds from a buffer of whole samples. *)
Definition ingest_frame (audio : list byte) : AudioFrame :=
  {| data := audio;
     sample_rate := SAMPLE_RATE;
     num_channels := CHANNELS;
     samples_per_channel := Z.of_nat (length audio / 2) |}.

Definition whole_samples (audio : list byte) : bool := Nat.even (length audio).

(** An idle session with nothing left from a session. *)
Definition cleared (s : DeviceSession) : Prop :=
  is_active s = false /\ session_id s = JNull /\ room s = None /\
  audio_source s = None.

(** No session was started yet: the session is as created, no call on a
    room was made and neither [session_started] nor [session_ended] was
    handed to the websocket. *)
Definition no_session_yet (st : Sys) : Prop :=
  cleared (session st) /\
  count_events is_room_call (trace st) = 0%nat /\
  count_events (is_send_of_type "session_started") (trace st) = 0%nat /\
  count_events (is_send_of_type "session_ended") (trace st) = 0%nat.

(** An idle session holds nothing of a session. *)
Definition idle_is_cleared (st : Sys) : Prop :=
  is_active (session st) = false -> cleared (session st).

(** What the loop of [_forward_agent_audio] may add to the trace: a binary
    frame handed to the websocket, or a log line. *)
Definition is_binary_send_or_log (e : Event) : bool :=
  match e with
  | WsSend (BinaryFrame _) _ | Log _ _ => true
  | _ => false
  end.

(** The [end_session] control message. *)
Definition end_msg : Message :=
  Text (Some (JObj [("type", JStr "end_session")])).

(** How the device closes a session: it says [end_session] first, or it
    just lets the connection end. *)
Definition closing (says_end : bool) : list Message :=
  if says_end then [end_msg] else [].

(** The state in which the receive loop is left once the messages are
    through. *)
Definition after_loop (ws : Z) (ending : LoopEnd) (st : Sys) : Sys :=
  match ending with
  | PeerClosed => st
  | ClosedError => with_event (Log INFO (DeviceDisconnected ws)) st
  | IOFault => with_event (Log ERROR ErrorInLoop) st
  end.

(** ** [main] *)

Definition LIVEKIT_API_KEY : string := "APIxxxxxxxxxx".

(** [sub in s] on [str]. *)
Fixpoint contains (sub s : string) : bool :=
  String.prefix sub s
  || match s with
     | EmptyString => false
     | String _ s' => contains sub s'
     end.

(** How [main] goes on: it prints the error for the URL and returns, it
    prints the error for the key and returns, or it reaches
    [await bridge.start()]. *)
Inductive MainOutcome : Type := RefusedUrl | RefusedKey | BridgeStarted.

(** [main] for the values of [LIVEKIT_URL] and [LIVEKIT_API_KEY]. *)
Definition main (livekit_url livekit_api_key : string) : MainOutcome :=
  if contains "your-project" livekit_url then RefusedUrl
  else if String.prefix "APIxx" livekit_api_key then RefusedKey
  else BridgeStarted.

(** The progress line of [process_audio_chunk]. *)
Definition is_streaming_log (e : Event) : bool :=
  match e with
  | Log _ (Streaming _) => true
  | _ => false
  end.

(** [room.disconnect()] on the room [r]. *)
Definition is_disconnect_of (r : Handle) (e : Event) : bool :=
  match e with
  | RoomDisconnect r' => Nat.eqb r r'
  | _ => false
  end.

(** The room [r] was connected and is out of the session's reach: the
    session refers to a later room or to none, and [r] was not
    disconnected. *)
Definition room_left_connected (r : Handle) (url : string) (tok : Token)
    (st : Sys) : Prop :=
  (r < next_handle st)%nat /\
  (forall r', room (session st) = Some r' -> (r < r')%nat) /\
  In (RoomConnect r url tok true) (trace st) /\
  count_events (is_disconnect_of r) (trace st) = 0%nat.

(** A [session_started] or [session_ended] message handed to the
    websocket. *)
Definition is_session_notice (e : Event) : bool :=
  is_send_of_type "session_started" e || is_send_of_type "session_ended" e.

(** The [session_started] and [session_ended] sends of a trace, newest
    first; what else goes over the websocket (replies, played-back audio
    and its markers) is left out. *)
Definition session_notices (tr : list Event) : list Event :=
  List.filter is_session_notice tr.

(** What a playback task ([_forward_agent_audio], started by the
    [track_subscribed] handler of [start_session]) can add to the trace: a
    log line, a binary frame, or a text message of type
    [agent_speaking_start] or [agent_speaking_end]. *)
Definition is_playback_event (e : Event) : bool :=
  match e with
  | Log _ _ | WsSend (BinaryFrame _) _ => true
  | WsSend (TextFrame _) _ =>
      is_send_of_type "agent_speaking_start" e
      || is_send_of_type "agent_speaking_end" e
  | _ => false
  end.

(** [merged l r m]: [m] is an interleaving of [l] and [r], each kept in its
    order.  The playback tasks run beside the connection handler on the
    same websocket; the traffic is such an interleaving. *)
Inductive merged : list Event -> list Event -> list Event -> Prop :=
| merged_nil : merged [] [] []
| merged_left (e : Event) (l r m : list Event) :
    merged l r m -> merged (e :: l) r (e :: m)
| merged_right (e : Event) (l r m : list Event) :
    merged l r m -> merged l (e :: r) (e :: m).


(** * Properties *)

Ltac unfold_ops :=
  unfold send_message, websocket_send, room_connect, publish_track,
    room_disconnect, capture_frame, except_Exception, logger, emit,
    update_self, get_self, update_devices, get_devices, fresh_handle,
    next_send, next_connect, next_publish, next_capture, try_except,
    try_finally, bind, ret, raise in *.

(** ** Samples and bytes *)

Lemma list_pair_ind {A : Type} (P : list A -> Prop) :
  P [] -> (forall x, P [x]) -> (forall x y l, P l -> P (x :: y :: l)) ->
  forall l, P l.
Proof.
  intros Hnil Hone Hstep l.
  assert (H : P l /\ forall x, P (x :: l)).
  { induction l as [|a l [IH1 IH2]]; split; auto. }
  apply H.
Qed.

Lemma byte_to_Z_range b : 0 <= byte_to_Z b < 256.
Proof.
  unfold byte_to_Z. pose proof (Byte.to_N_bounded b). lia.
Qed.

Lemma byte_of_to_Z b : byte_of_Z (byte_to_Z b) = b.
Proof.
  unfold byte_of_Z, byte_to_Z. rewrite N2Z.id, Byte.of_to_N. reflexivity.
Qed.

Lemma byte_to_of_Z z : 0 <= z < 256 -> byte_to_Z (byte_of_Z z) = z.
Proof.
  intros Hz. unfold byte_of_Z, byte_to_Z.
  destruct (Byte.of_N (Z.to_N z)) as [b|] eqn:E.
  - apply Byte.to_of_N in E. rewrite E. lia.
  - pose proof (Byte.to_of_N_option_map (Z.to_N z)) as H.
    rewrite E in H. simpl in H.
    destruct (N.leb_spec (Z.to_N z) 255); [discriminate | lia].
Qed.

Lemma int16_bytes_roundtrip lo hi :
  int16_to_bytes (int16_of_bytes lo hi) = [lo; hi].
Proof.
  pose proof (byte_to_Z_range lo) as Hlo.
  pose proof (byte_to_Z_range hi) as Hhi.
  unfold int16_to_bytes, int16_of_bytes.
  set (u := byte_to_Z lo + 256 * byte_to_Z hi).
  assert (Hu : (if u <? 32768 then u else u - 65536) mod 65536 = u).
  { destruct (Z.ltb_spec u 32768).
    - apply Z.mod_small. lia.
    - replace (u - 65536) with (u + (-1) * 65536) by lia.
      rewrite Z.mod_add by lia. apply Z.mod_small. lia. }
  rewrite Hu.
  assert (Hm : u mod 256 = byte_to_Z lo).
  { symmetry. apply Z.mod_unique_pos with (q := byte_to_Z hi); unfold u; lia. }
  assert (Hd : u / 256 = byte_to_Z hi).
  { symmetry. apply Z.div_unique_pos with (r := byte_to_Z lo); unfold u; lia. }
  rewrite Hm, Hd, !byte_of_to_Z. reflexivity.
Qed.

Lemma int16_samples_roundtrip v :
  int16 v -> frombuffer_int16 (int16_to_bytes v) = Some [v].
Proof.
  intros Hv. unfold int16 in Hv. unfold int16_to_bytes. simpl.
  f_equal. f_equal. unfold int16_of_bytes.
  pose proof (Z.mod_pos_bound v 65536 ltac:(lia)) as Hu.
  set (u := v mod 65536) in *.
  pose proof (Z.mod_pos_bound u 256 ltac:(lia)) as Hm.
  assert (Hd : 0 <= u / 256 < 256).
  { split; [apply Z.div_pos; lia | apply Z.div_lt_upper_bound; lia]. }
  rewrite !byte_to_of_Z by assumption.
  pose proof (Z.div_mod u 256 ltac:(lia)) as Hdm.
  replace (u mod 256 + 256 * (u / 256)) with u by lia.
  pose proof (Z.div_mod v 65536 ltac:(lia)) as Hv'. fold u in Hv'.
  destruct (Z.ltb_spec u 32768); lia.
Qed.

Lemma frombuffer_odd (audio : list byte) :
  Nat.odd (length audio) = true -> frombuffer_int16 audio = None.
Proof.
  induction audio as [| x | x y l IH] using list_pair_ind; intros H.
  - discriminate.
  - reflexivity.
  - cbn [length] in H. rewrite Nat.odd_succ_succ in H.
    cbn [frombuffer_int16]. rewrite (IH H). reflexivity.
Qed.

Lemma frombuffer_even (audio : list byte) :
  Nat.even (length audio) = true ->
  exists samples, frombuffer_int16 audio = Some samples /\ tobytes samples = audio.
Proof.
  induction audio as [| x | x y l IH] using list_pair_ind; intros H.
  - exists []. split; reflexivity.
  - discriminate.
  - cbn [length] in H. rewrite Nat.even_succ_succ in H.
    destruct (IH H) as (samples & Hs & Hb).
    exists (int16_of_bytes x y :: samples). cbn [frombuffer_int16].
    rewrite Hs. split; [reflexivity |].
    unfold tobytes in *. cbn [flat_map].
    rewrite int16_bytes_roundtrip, Hb. reflexivity.
Qed.

Lemma frombuffer_tobytes (samples : list Z) :
  Forall int16 samples -> frombuffer_int16 (tobytes samples) = Some samples.
Proof.
  induction 1 as [| v l Hv Hl IH]; [reflexivity |].
  pose proof (int16_samples_roundtrip v Hv) as H1.
  unfold tobytes in *. cbn [flat_map].
  unfold int16_to_bytes in *. cbn [app].
  cbn [frombuffer_int16] in *. rewrite IH.
  injection H1 as H1. rewrite H1. reflexivity.
Qed.

Lemma slice_step2_interleave (left right : list Z) :
  length left = length right -> slice_step2 (interleave left right) = left.
Proof.
  revert right. induction left as [| l left IH]; intros [| r right] H;
    try discriminate; [reflexivity |].
  cbn [interleave slice_step2]. f_equal. apply IH.
  cbn [length] in H. congruence.
Qed.

Lemma interleave_int16 (left right : list Z) :
  Forall int16 left -> Forall int16 right -> Forall int16 (interleave left right).
Proof.
  intros Hl. revert right. induction Hl as [| l left Hv Hl IH]; intros right Hr.
  - constructor.
  - destruct Hr as [| r right Hr0 Hr]; cbn [interleave]; [constructor |].
    constructor; [assumption |]. constructor; [assumption |]. apply IH, Hr.
Qed.

(** ** Ending a session *)

Lemma end_session_idle st :
  is_active (session st) = false -> end_session st = (Ok tt, st).
Proof.
  intros H. unfold end_session. unfold_ops. rewrite H. reflexivity.
Qed.

Lemma end_session_returns st :
  exists st', end_session st = (Ok tt, st') /\
    is_active (session st') = false /\
    session_id (session st') = (if is_active (session st) then JNull
                                else session_id (session st)) /\
    room (session st') = (if is_active (session st) then None
                          else room (session st)).
Proof.
  unfold end_session. unfold_ops.
  destruct (is_active (session st)) eqn:E; cbn.
  - destruct (room (session st)) eqn:R; cbn;
      destruct (send_results (env st)) as [| [] ?]; cbn;
      eexists; (split; [reflexivity |]); cbn; auto.
  - eexists. repeat split; assumption.
Qed.

(** C6: [end_session] on an idle session returns at once, with no call on
    the websocket or the room and no field changed; hence running it twice
    in a row is the same computation as running it once. *)
Theorem end_session_idempotent (st : Sys) :
  (is_active (session st) = false -> end_session st = (Ok tt, st)) /\
  (do _ <- end_session; end_session) st = end_session st.
Proof.
  split; [apply end_session_idle |].
  destruct (end_session_returns st) as (st' & Hrun & Hidle & _).
  unfold bind. rewrite Hrun. apply end_session_idle, Hidle.
Qed.

Lemma end_session_idempotent_witness :
  end_session idle_example
    = (Ok tt, idle_example).
Proof.
  apply (proj1 (end_session_idempotent idle_example)).
  reflexivity.
Defined.

(** ** Ingest *)

Lemma not_active_guard (s : DeviceSession) :
  lifecycle s <> Active ->
  is_active s = false \/ audio_source s = None.
Proof.
  unfold lifecycle. destruct (is_active s); [| auto].
  destruct (audio_source s); [congruence | auto].
Qed.

(** C7: a binary frame that arrives while the session is not [Active] is
    dropped without a trace: the call returns normally, nothing is logged,
    [capture_frame] is not called and no field of the session changes. *)
Theorem frame_dropped_when_not_active (audio : list byte) (st : Sys) :
  lifecycle (session st) <> Active ->
  process_audio_chunk audio st = (Ok tt, st) /\
  _handle_message (Binary audio) st = (Ok tt, st).
Proof.
  intros H. apply not_active_guard in H.
  assert (Hp : process_audio_chunk audio st = (Ok tt, st)).
  { unfold process_audio_chunk. unfold_ops.
    destruct H as [H | H]; rewrite H; [reflexivity |].
    destruct (is_active (session st)); reflexivity. }
  split; [exact Hp | exact Hp].
Qed.

Lemma frame_dropped_when_not_active_witness :
  process_audio_chunk [x01; x02] idle_example
    = (Ok tt, idle_example).
Proof.
  apply (frame_dropped_when_not_active [x01; x02]
           idle_example).
  unfold lifecycle. cbn. discriminate.
Defined.

Lemma active_fields (s : DeviceSession) :
  lifecycle s = Active ->
  is_active s = true /\ exists src, audio_source s = Some src.
Proof.
  unfold lifecycle. destruct (is_active s); [| discriminate].
  destruct (audio_source s) as [src |]; [eauto | discriminate].
Qed.

(** C10: while [Active], a binary frame with an odd number of bytes makes
    [np.frombuffer] raise inside the [try] of [process_audio_chunk]: the
    one effect is the error log line.  The session is as before (still
    [Active], same counter, no frame captured), no exception leaves
    [_handle_message], and the receive loop goes on to the next message. *)
Theorem odd_frame_logged_and_dropped
    (audio : list byte) (rest : list Message) (ending : LoopEnd) (st : Sys) :
  lifecycle (session st) = Active ->
  Nat.odd (length audio) = true ->
  let st' := with_event (Log ERROR ErrorProcessingAudio) st in
  _handle_message (Binary audio) st = (Ok tt, st') /\
  session st' = session st /\
  env st' = env st /\
  lifecycle (session st') = Active /\
  receive_loop (Binary audio :: rest) ending st = receive_loop rest ending st'.
Proof.
  intros Hact Hodd st'.
  assert (Hm : _handle_message (Binary audio) st = (Ok tt, st')).
  { destruct (active_fields _ Hact) as (Ha & src & Hs).
    cbn [_handle_message]. unfold process_audio_chunk. unfold_ops.
    rewrite Ha, Hs, (frombuffer_odd _ Hodd). reflexivity. }
  split; [exact Hm |]. repeat split; [exact Hact |].
  cbn [receive_loop]. unfold bind. rewrite Hm. reflexivity.
Qed.

Lemma odd_frame_logged_and_dropped_witness :
  _handle_message (Binary [x01; x02; x03]) active_example
    = (Ok tt, with_event (Log ERROR ErrorProcessingAudio) active_example).
Proof.
  apply (odd_frame_logged_and_dropped [x01; x02; x03] [] PeerClosed active_example);
    reflexivity.
Defined.

(** ** Playback *)

Lemma count_events_app p (l1 l2 : list Event) :
  count_events p (l1 ++ l2) = (count_events p l1 + count_events p l2)%nat.
Proof.
  induction l1 as [| e l1 IH]; [reflexivity |].
  cbn [app count_events]. rewrite IH. lia.
Qed.

Lemma sends_app (l1 l2 : list Event) : sends (l1 ++ l2) = sends l1 ++ sends l2.
Proof. apply List.filter_app. Qed.

(** C8: a two-channel frame is forwarded as its left channel: when the
    frame's bytes are the samples [L0; R0; L1; R1; ..] the payload is the
    bytes of [L0; L1; ..], and these are the bytes handed to
    [websocket.send]; a one-channel frame is forwarded byte for byte. *)
Theorem stereo_downmix_left_channel (frame : AudioFrame) :
  (forall left right,
      num_channels frame = 2 ->
      length left = length right ->
      Forall int16 left -> Forall int16 right ->
      data frame = tobytes (interleave left right) ->
      playback_payload frame = Some (tobytes left)) /\
  (forall l0 r0 l1 r1,
      num_channels frame = 2 ->
      int16 l0 -> int16 r0 -> int16 l1 -> int16 r1 ->
      data frame = tobytes [l0; r0; l1; r1] ->
      playback_payload frame = Some (tobytes [l0; l1])) /\
  (num_channels frame = 1 ->
   Nat.even (length (data frame)) = true ->
   playback_payload frame = Some (data frame)) /\
  (forall payload st,
      playback_payload frame = Some payload ->
      exists o1 o2 o3,
        sends (trace (_forward_agent_audio (mkTrack [frame] false) st).2)
        = [WsSend (TextFrame agent_speaking_end_msg) o3;
           WsSend (BinaryFrame payload) o2;
           WsSend (TextFrame agent_speaking_start_msg) o1] ++ sends (trace st)).
Proof.
  assert (Hgen : forall left right,
      num_channels frame = 2 ->
      length left = length right ->
      Forall int16 left -> Forall int16 right ->
      data frame = tobytes (interleave left right) ->
      playback_payload frame = Some (tobytes left)).
  { intros left right Hc Hlen Hl Hr Hd. unfold playback_payload.
    rewrite Hd, frombuffer_tobytes by (apply interleave_int16; assumption).
    rewrite Hc. change (2 =? 2) with true. cbv iota.
    rewrite slice_step2_interleave by assumption.
    reflexivity. }
  split; [exact Hgen |]. split; [| split].
  - intros l0 r0 l1 r1 Hc H0 H1 H2 H3 Hd.
    apply (Hgen [l0; l1] [r0; r1]); auto.
  - intros Hc Hev. unfold playback_payload.
    destruct (frombuffer_even _ Hev) as (samples & Hs & Hb).
    rewrite Hs, Hc. change (1 =? 2) with false. cbv iota. rewrite Hb.
    reflexivity.
  - intros payload st Hp.
    unfold _forward_agent_audio. cbn [frames stream_raises forward_frames].
    rewrite Hp. unfold_ops.
    destruct st as [s b [cs ps ks ss] tr h]. cbn.
    destruct ss as [| o1 [| o2 [| o3 l]]]; cbn.
    + exists Sent, Sent, Sent. reflexivity.
    + exists o1, Sent, Sent. destruct o1; reflexivity.
    + exists o1, o2, Sent. destruct o1, o2; reflexivity.
    + exists o1, o2, o3. destruct o1, o2, o3; reflexivity.
Qed.

Lemma stereo_downmix_left_channel_witness :
  playback_payload (mkAudioFrame (tobytes [1; -2; 3; -4]) 48000 2 2)
    = Some (tobytes [1; 3]).
Proof.
  apply (proj1 (proj2 (stereo_downmix_left_channel
                         (mkAudioFrame (tobytes [1; -2; 3; -4]) 48000 2 2)))
           1 (-2) 3 (-4));
    unfold int16; try reflexivity; lia.
Defined.

Lemma forward_frames_trace (fs : list AudioFrame) (raises_at_end : bool) (st : Sys) :
  exists during,
    trace (forward_frames fs raises_at_end st).2 = during ++ trace st /\
    count_events (is_send_of_type "agent_speaking_end") during = 0%nat /\
    (send_results (env st) = [] ->
     send_results (env (forward_frames fs raises_at_end st).2) = []).
Proof.
  revert st. induction fs as [| frame rest IH]; intros st.
  - exists []. cbn [forward_frames]. unfold_ops.
    destruct raises_at_end; cbn; auto.
  - cbn [forward_frames]. unfold bind at 1.
    destruct (playback_payload frame) as [payload |].
    + unfold_ops. destruct st as [s b [cs ps ks ss] tr h].
      destruct ss as [| [] ss]; cbn.
      * match goal with |- context [forward_frames rest _ ?st1] =>
          destruct (IH st1) as (during & Ht & Hc & He) end.
        eexists (during ++ [_]). rewrite Ht. cbn. rewrite <- app_assoc.
        split; [reflexivity |]. rewrite count_events_app, Hc.
        split; [reflexivity |]. intros _. apply He. reflexivity.
      * match goal with |- context [forward_frames rest _ ?st1] =>
          destruct (IH st1) as (during & Ht & Hc & He) end.
        eexists (during ++ [_]). rewrite Ht. cbn. rewrite <- app_assoc.
        split; [reflexivity |]. rewrite count_events_app, Hc.
        split; [reflexivity |]. discriminate.
      * eexists [_; _]. repeat split. discriminate.
      * eexists [_]. repeat split. discriminate.
    + exists []. unfold_ops. cbn. auto.
Qed.

Lemma send_message_spec (msg : json) (st : Sys) :
  exists (o : SendOutcome) (st' : Sys),
    send_message msg st = (Ok tt, st') /\
    trace st' = match o with
                | Sent => []
                | _ => [Log ERROR ErrorSendingMessage]
                end ++ WsSend (TextFrame msg) o :: trace st /\
    session st' = session st /\
    next_handle st' = next_handle st /\
    (send_results (env st) = [] -> o = Sent /\ send_results (env st') = []).
Proof.
  unfold send_message. unfold_ops. destruct st as [s b [cs ps ks ss] tr h].
  destruct ss as [| o ss]; cbn.
  - exists Sent. eexists. repeat split.
  - exists o. destruct o; cbn; eexists; repeat split; discriminate.
Qed.

Lemma playback_body_spec (track : Track) (st : Sys) :
  exists (during : list Event) (st' : Sys),
    try_except
      (do _ <- forward_frames (frames track) (stream_raises track); ret tt)
      (except_Exception (fun _ => logger ERROR ErrorForwardingAudio)) st
    = (Ok tt, st') /\
    trace st' = during ++ trace st /\
    count_events (is_send_of_type "agent_speaking_end") during = 0%nat /\
    (send_results (env st) = [] -> send_results (env st') = []).
Proof.
  destruct (forward_frames_trace (frames track) (stream_raises track) st)
    as (during & Ht & Hc & He).
  unfold try_except, bind, except_Exception, logger, emit, ret.
  destruct (forward_frames (frames track) (stream_raises track) st)
    as [[b | e] st1]; cbn [snd] in *.
  - exists during, st1. auto.
  - exists (Log ERROR ErrorForwardingAudio :: during). eexists.
    split; [reflexivity |]. cbn. rewrite Ht. auto.
Qed.

(** C9: whatever the stream of remote frames does (it ends, it raises, a
    frame cannot be forwarded, the device socket is closed), the task
    returns, and its last call on the websocket is the one
    [agent_speaking_end] message of the run, made from the [finally] block;
    the message goes out whenever the socket still takes it. *)
Theorem agent_speaking_end_always_sent (track : Track) (st : Sys) :
  exists (o : SendOutcome) (during : list Event) (st' : Sys),
    _forward_agent_audio track st = (Ok tt, st') /\
    trace st' = Log INFO AgentFinishedSpeaking
                  :: match o with
                     | Sent => []
                     | _ => [Log ERROR ErrorSendingMessage]
                     end
                  ++ WsSend (TextFrame (JObj [("type", JStr "agent_speaking_end")])) o
                  :: during ++ trace st /\
    count_events (is_send_of_type "agent_speaking_end") during = 0%nat /\
    count_events is_send
      (match o with
       | Sent => []
       | _ => [Log ERROR ErrorSendingMessage]
       end) = 0%nat /\
    (send_results (env st) = [] -> o = Sent).
Proof.
  unfold _forward_agent_audio.
  unfold bind at 1. unfold logger at 1, emit at 1.
  set (st1 := with_event (Log INFO StartingPlayback) st).
  unfold bind at 1.
  destruct (send_message_spec agent_speaking_start_msg st1)
    as (o1 & st2 & Hs1 & Ht2 & _ & _ & He2).
  rewrite Hs1. unfold try_finally.
  destruct (playback_body_spec track st2) as (during & st3 & Hb & Ht3 & Hc & He3).
  rewrite Hb. unfold bind at 1.
  destruct (send_message_spec agent_speaking_end_msg st3)
    as (o & st4 & Hs4 & Ht4 & _ & _ & He4).
  rewrite Hs4. unfold logger, emit.
  exists o, (during ++ match o1 with
                       | Sent => []
                       | _ => [Log ERROR ErrorSendingMessage]
                       end
                    ++ [WsSend (TextFrame agent_speaking_start_msg) o1;
                        Log INFO StartingPlayback]).
  eexists. split; [reflexivity |]. split; [| split; [| split]].
  - cbn [trace with_event]. rewrite Ht4, Ht3, Ht2. subst st1.
    cbn [trace with_event]. rewrite <- !app_assoc. reflexivity.
  - rewrite !count_events_app, Hc. destruct o1; reflexivity.
  - destruct o; reflexivity.
  - intros Hnil. apply He4, He3, He2. exact Hnil.
Qed.

(** ** Conditions kept by the receive loop *)

Lemma preserves_ret {A : Type} (I : Sys -> Prop) (a : A) : preserves I (ret a).
Proof. intros st H. exact H. Qed.

Lemma preserves_raise {A : Type} (I : Sys -> Prop) (e : exn) :
  preserves I (@raise A e).
Proof. intros st H. exact H. Qed.

Lemma preserves_bind {A B : Type} (I : Sys -> Prop) (m : M A) (k : A -> M B) :
  preserves I m -> (forall a, preserves I (k a)) -> preserves I (bind m k).
Proof.
  intros Hm Hk st H. unfold bind. specialize (Hm st H).
  destruct (m st) as [[a | e] st']; cbn [snd] in *; [apply Hk, Hm | exact Hm].
Qed.

Lemma preserves_try_except {A : Type} (I : Sys -> Prop) (body : M A)
    (h : exn -> option (M A)) :
  preserves I body ->
  (forall e handler, h e = Some handler -> preserves I handler) ->
  preserves I (try_except body h).
Proof.
  intros Hb Hh st H. unfold try_except. specialize (Hb st H).
  destruct (body st) as [[a | e] st']; cbn [snd] in *; [exact Hb |].
  destruct (h e) as [handler |] eqn:E; [apply (Hh e handler E), Hb | exact Hb].
Qed.


Lemma preserves_get_self (I : Sys -> Prop) : preserves I get_self.
Proof. intros st H. exact H. Qed.

Lemma preserves_msg_get (I : Sys -> Prop) (msg : json) (key : string) :
  preserves I (msg_get msg key).
Proof. intros st H. destruct msg; exact H. Qed.

Section ReceiveLoop.

Variable Inv : Sys -> Prop.
Hypothesis start_keeps : forall sid url tok, preserves Inv (start_session sid url tok).
Hypothesis end_keeps : preserves Inv end_session.
Hypothesis chunk_keeps : forall audio, preserves Inv (process_audio_chunk audio).
Hypothesis ready_keeps : preserves Inv (send_message ready_msg).
Hypothesis log_keeps : forall lvl m, loop_log m -> preserves Inv (logger lvl m).

Lemma handle_message_preserves (message : Message) :
  preserves Inv (_handle_message message).
Proof.
  destruct message as [audio | parsed]; cbn [_handle_message];
    [apply chunk_keeps |].
  apply preserves_try_except.
  - apply preserves_bind.
    { destruct parsed; [apply preserves_ret | apply preserves_raise]. }
    intros msg. apply preserves_bind; [apply preserves_msg_get |].
    intros msg_type.
    destruct (str_eq msg_type "device_info").
    { apply preserves_bind; [apply preserves_msg_get |]. intros v.
      apply preserves_bind; [apply log_keeps; exact I |]. intros _.
      apply ready_keeps. }
    destruct (str_eq msg_type "start_session").
    { apply preserves_bind; [apply preserves_msg_get |]. intros sid.
      apply preserves_bind; [apply preserves_get_self |]. intros self.
      apply preserves_bind; [apply start_keeps |]. intros _.
      apply preserves_ret. }
    destruct (str_eq msg_type "end_session");
      [apply end_keeps | apply preserves_ret].
  - intros e handler He. destruct e; try discriminate.
    injection He as <-. apply log_keeps. exact I.
Qed.

Lemma receive_loop_preserves (messages : list Message) (ending : LoopEnd) :
  preserves Inv (receive_loop messages ending).
Proof.
  induction messages as [| message rest IH]; cbn [receive_loop].
  - destruct ending; [apply preserves_ret | apply preserves_raise ..].
  - apply preserves_bind; [apply handle_message_preserves |].
    intros _. exact IH.
Qed.

Lemma guarded_loop_preserves (device : Z) (messages : list Message)
    (ending : LoopEnd) :
  preserves Inv (guarded_loop device messages ending).
Proof.
  apply preserves_try_except; [apply receive_loop_preserves |].
  intros e handler He.
  destruct e; injection He as <-; apply log_keeps; exact I.
Qed.

End ReceiveLoop.

(** ** The frame counter *)










Lemma forwarded_count_cons (e : Event) (tr : list Event) :
  count_events is_forwarded (e :: tr)
  = ((if is_forwarded e then 1 else 0) + count_events is_forwarded tr)%nat.
Proof. reflexivity. Qed.


(** ** Cleanup of a connection *)

Ltac before_cleanup_cases :=
  unfold before_cleanup in *; cbn in *;
  repeat match goal with
         | |- _ /\ _ => split
         | H : _ /\ _ |- _ => destruct H
         end;
  try assumption; try reflexivity.

Lemma start_session_before_cleanup registry sid url tok :
  preserves (before_cleanup registry) (start_session sid url tok).
Proof.
  intros st H. unfold start_session. unfold_ops.
  destruct st as [s b [cs ps ks ss] tr h].
  destruct cs as [| [] cs]; cbn;
    destruct ps as [| [] ps]; cbn;
    destruct ss as [| [] ss]; before_cleanup_cases.
Qed.

Lemma end_session_before_cleanup registry :
  preserves (before_cleanup registry) end_session.
Proof.
  intros st H. unfold end_session. unfold_ops.
  destruct st as [s b [cs ps ks ss] tr h]. cbn.
  destruct (is_active s); cbn; [| exact H].
  destruct (room s); cbn; destruct ss as [| [] ss]; before_cleanup_cases.
Qed.

Lemma process_audio_chunk_before_cleanup registry audio :
  preserves (before_cleanup registry) (process_audio_chunk audio).
Proof.
  intros st H. unfold process_audio_chunk. unfold_ops.
  destruct st as [s b [cs ps ks ss] tr h]. cbn.
  destruct (is_active s); cbn; [| exact H].
  destruct (audio_source s) as [src |]; cbn; [| exact H].
  destruct (frombuffer_int16 audio) as [pcm |]; cbn; [| before_cleanup_cases].
  destruct ks as [| [] ks]; cbn;
    try destruct (_ =? 0); before_cleanup_cases.
Qed.

Lemma send_ready_before_cleanup registry :
  preserves (before_cleanup registry) (send_message ready_msg).
Proof.
  intros st H. unfold_ops. destruct st as [s b [cs ps ks ss] tr h].
  destruct ss as [| [] ss]; before_cleanup_cases.
Qed.

Lemma loop_log_before_cleanup registry lvl m :
  loop_log m -> preserves (before_cleanup registry) (logger lvl m).
Proof.
  intros Hm st H. unfold_ops. destruct m; try contradiction;
    before_cleanup_cases.
Qed.

Lemma guarded_loop_returns device messages ending st :
  (guarded_loop device messages ending st).1 = Ok tt.
Proof.
  unfold guarded_loop, try_except.
  destruct (receive_loop messages ending st) as [[[] | e] st'];
    [reflexivity |]. destruct e; reflexivity.
Qed.

Lemma loop_exit_before_cleanup b ws messages ending e h :
  before_cleanup (<[ws := DeviceSession_init ws]> (devices b))
    (loop_exit b ws messages ending e h).
Proof.
  unfold loop_exit.
  apply guarded_loop_preserves;
    auto using start_session_before_cleanup, end_session_before_cleanup,
      process_audio_chunk_before_cleanup, send_ready_before_cleanup,
      loop_log_before_cleanup.
  split; reflexivity.
Qed.

Lemma handle_device_unfold b ws messages ending e h :
  handle_device b ws messages ending e h
  = match cleanup ws (loop_exit b ws messages ending e h) with
    | (Ok _, st') => (Ok tt, st')
    | (Raise x, st') => (Raise x, st')
    end.
Proof.
  unfold handle_device, handle_device_body, serve_device, loop_exit.
  unfold bind at 1. unfold get_self at 1. unfold bind at 1.
  unfold update_devices at 1. unfold bind at 1.
  unfold logger at 1, emit at 1. unfold try_finally.
  change (with_event _ (with_devices _ _)) with (loop_entry b ws e h).
  pose proof (guarded_loop_returns ws messages ending (loop_entry b ws e h)) as Hr.
  destruct (guarded_loop ws messages ending (loop_entry b ws e h)) as [r st1].
  cbn [fst snd] in *. subst r. reflexivity.
Qed.

Lemma cleanup_unfold ws st registry :
  before_cleanup (<[ws := DeviceSession_init ws]> registry) st ->
  cleanup ws st
  = (Ok tt,
     with_event (Log INFO (CleanedUp ws))
       (with_devices (delete ws)
          (if is_active (session st) then (end_session st).2 else st))).
Proof.
  intros Hb. unfold cleanup. unfold bind at 1. unfold get_self at 1.
  unfold bind at 1.
  assert (Hk : before_cleanup (<[ws := DeviceSession_init ws]> registry)
                 (if is_active (session st) then (end_session st).2 else st)).
  { destruct (is_active (session st));
      [apply end_session_before_cleanup, Hb | exact Hb]. }
  assert (Hrun : (if is_active (session st) then end_session else ret tt) st
                 = (Ok tt, if is_active (session st) then (end_session st).2
                           else st)).
  { destruct (is_active (session st)); [| reflexivity].
    destruct (end_session_returns st) as (st' & -> & _). reflexivity. }
  rewrite Hrun. destruct Hk as [Hd _].
  unfold_ops. rewrite Hd, lookup_insert_eq. reflexivity.
Qed.

Lemma end_session_logs_once st :
  is_active (session st) = true ->
  count_events is_ending_log (trace (end_session st).2)
  = S (count_events is_ending_log (trace st)).
Proof.
  intros H. unfold end_session. unfold_ops.
  destruct st as [s b [cs ps ks ss] tr h]. cbn in *. rewrite H. cbn.
  destruct (room s); cbn; destruct ss as [| [] ss]; reflexivity.
Qed.

(** C4: however the receive loop is left (the peer closes, the socket
    fails, or handling a message raises), [handle_device] returns after
    one pass through its [finally]: [end_session] is run there exactly when
    the session is still active at that point, the device's key is then
    deleted from the registry (other keys are untouched), and the cleanup
    line is logged once. *)
Theorem cleanup_runs_exactly_once
    (b : UMIBridge) (ws : Z) (messages : list Message) (ending : LoopEnd)
    (e : Env) (h : Handle) :
  let at_exit := loop_exit b ws messages ending e h in
  let out := handle_device b ws messages ending e h in
  out.1 = Ok tt /\
  out.2 = with_event (Log INFO (CleanedUp ws))
            (with_devices (delete ws)
               (if is_active (session at_exit) then (end_session at_exit).2
                else at_exit)) /\
  devices (bridge out.2) !! ws = None /\
  (forall k, k <> ws -> devices (bridge out.2) !! k = devices b !! k) /\
  is_active (session out.2) = false /\
  count_events is_cleanup_log (trace out.2) = 1%nat /\
  count_events is_ending_log (trace out.2)
  = (count_events is_ending_log (trace at_exit)
     + (if is_active (session at_exit) then 1 else 0))%nat.
Proof.
  intros at_exit out.
  pose proof (loop_exit_before_cleanup b ws messages ending e h) as Hexit.
  fold at_exit in Hexit.
  assert (Hout : out = (Ok tt,
            with_event (Log INFO (CleanedUp ws))
              (with_devices (delete ws)
                 (if is_active (session at_exit) then (end_session at_exit).2
                  else at_exit)))).
  { unfold out. rewrite handle_device_unfold. fold at_exit.
    rewrite (cleanup_unfold ws at_exit (devices b) Hexit). reflexivity. }
  rewrite Hout. cbn [fst snd].
  assert (Hkeep : before_cleanup (<[ws := DeviceSession_init ws]> (devices b))
                    (if is_active (session at_exit) then (end_session at_exit).2
                     else at_exit)).
  { destruct (is_active (session at_exit));
      [apply end_session_before_cleanup, Hexit | exact Hexit]. }
  destruct Hkeep as [Hd Hc].
  split; [reflexivity |]. split; [reflexivity |].
  cbn [with_event with_devices bridge devices session trace].
  rewrite Hd. split; [apply lookup_delete_eq |]. split.
  { intros k Hk. rewrite lookup_delete_ne, lookup_insert_ne by congruence.
    reflexivity. }
  split.
  { destruct (is_active (session at_exit)) eqn:Ha; [| exact Ha].
    destruct (end_session_returns at_exit) as (st' & -> & Hi & _). exact Hi. }
  split.
  { cbn [count_events is_cleanup_log]. rewrite Hc. reflexivity. }
  cbn [count_events is_ending_log].
  destruct (is_active (session at_exit)) eqn:Ha.
  - rewrite (end_session_logs_once _ Ha). lia.
  - lia.
Qed.

Lemma cleanup_runs_exactly_once_witness :
  devices (bridge (handle_device (mkUMIBridge ∅) 7
                     [Text (Some (JObj [("type", JStr "start_session");
                                        ("session_id", JStr "abc")]));
                      Binary [x01; x02]]
                     ClosedError quiet_env 0%nat).2) !! 8
  = devices (mkUMIBridge ∅) !! 8.
Proof.
  apply (cleanup_runs_exactly_once (mkUMIBridge ∅) 7
           [Text (Some (JObj [("type", JStr "start_session");
                              ("session_id", JStr "abc")]));
            Binary [x01; x02]]
           ClosedError quiet_env 0%nat).
  lia.
Defined.

(** ** The fields of a session between calls *)

Lemma start_session_fields sid url tok st :
  let s' := session (start_session sid url tok st).2 in
  session_id s' = sid /\ is_active s' = true /\
  audio_frames_sent s' = 0 /\ room s' = Some (next_handle st).
Proof.
  unfold start_session. unfold_ops.
  destruct st as [s b [cs ps ks ss] tr h].
  destruct cs as [| [] cs]; cbn; auto;
    destruct ps as [| [] ps]; cbn; auto;
    destruct ss as [| [] ss]; cbn; auto.
Qed.

Lemma process_audio_chunk_fields audio st :
  let s := session st in
  let s' := session (process_audio_chunk audio st).2 in
  session_id s' = session_id s /\ is_active s' = is_active s /\
  room s' = room s.
Proof.
  unfold process_audio_chunk. unfold_ops.
  destruct st as [s b [cs ps ks ss] tr h]. cbn.
  destruct (is_active s) eqn:Ha; cbn; auto.
  destruct (audio_source s) as [src |]; cbn; auto.
  destruct (frombuffer_int16 audio) as [pcm |]; cbn; auto.
  destruct ks as [| [] ks]; cbn; try destruct (_ =? 0); cbn; auto.
Qed.

Lemma run_op_session_inv (o : Op) (st : Sys) :
  session_inv (session st) -> session_inv (session (run_op o st).2).
Proof.
  unfold session_inv. intros (Hid & Hroom).
  destruct o as [sid url tok | | audio]; cbn [run_op].
  - pose proof (start_session_fields sid url tok st) as (_ & Ha & _ & Hr).
    unfold bind, ret.
    destruct (start_session sid url tok st) as [[r | x] st']; cbn [snd] in *;
      rewrite Ha, Hr; repeat split; intros; cbn; congruence.
  - destruct (end_session_returns st) as (st' & -> & Ha & Hs & Hr).
    cbn [snd]. rewrite Ha, Hs, Hr.
    destruct (is_active (session st)) eqn:E.
    + repeat split; intros; cbn; congruence.
    + repeat split; intros; try congruence; auto.
      apply Hroom in H. congruence.
  - pose proof (process_audio_chunk_fields audio st) as (Hs & Ha & Hr).
    cbn zeta in *. rewrite Hs, Ha, Hr.
    repeat split; tauto.
Qed.

Lemma run_op_identified (o : Op) (st : Sys) :
  start_has_id o ->
  identified (session st) -> identified (session (run_op o st).2).
Proof.
  unfold identified. intros Ho Hid.
  destruct o as [sid url tok | | audio]; cbn [run_op start_has_id] in *.
  - pose proof (start_session_fields sid url tok st) as (Hs & _).
    unfold bind, ret.
    destruct (start_session sid url tok st) as [[r | x] st']; cbn [snd] in *;
      rewrite Hs; auto.
  - destruct (end_session_returns st) as (st' & -> & Ha & _).
    cbn [snd]. congruence.
  - pose proof (process_audio_chunk_fields audio st) as (Hs & Ha & _).
    cbn zeta in *. rewrite Hs, Ha. exact Hid.
Qed.

Lemma run_ops_session_inv (ops : list Op) (st : Sys) :
  session_inv (session st) -> session_inv (session (run_ops ops st)).
Proof.
  revert st. induction ops as [| o ops IH]; intros st H; [exact H |].
  cbn [run_ops]. apply IH, run_op_session_inv, H.
Qed.

Lemma run_ops_identified (ops : list Op) (st : Sys) :
  Forall start_has_id ops ->
  identified (session st) -> identified (session (run_ops ops st)).
Proof.
  intros Hops. revert st. induction Hops as [| o ops Ho Hops IH]; intros st H;
    [exact H |].
  cbn [run_ops]. apply IH, run_op_identified; assumption.
Qed.

Lemma idle_no_room_connected (st : Sys) :
  session_inv (session st) -> rooms_in_hand st ->
  is_active (session st) = false -> connected_rooms (trace st) = [].
Proof.
  intros (_ & Hroom) [H | (r & Hr & _)] Ha; [exact H |].
  assert (Hn : room (session st) <> None) by congruence.
  apply Hroom in Hn. congruence.
Qed.

Lemma start_session_rooms_in_hand sid url tok (st : Sys) :
  connected_rooms (trace st) = [] ->
  rooms_in_hand (start_session sid url tok st).2.
Proof.
  intros H. unfold rooms_in_hand, start_session. unfold_ops.
  destruct st as [s b [cs ps ks ss] tr h]. cbn in H.
  destruct cs as [| [] cs]; cbn;
    try (left; exact H);
    destruct ps as [| [] ps]; cbn;
    try (right; exists h; rewrite H; split; reflexivity);
    destruct ss as [| [] ss]; cbn;
    right; exists h; rewrite H; split; reflexivity.
Qed.

Lemma end_session_rooms_in_hand (st : Sys) :
  rooms_in_hand st -> rooms_in_hand (end_session st).2.
Proof.
  intros H. unfold rooms_in_hand in *. unfold end_session. unfold_ops.
  destruct st as [s b [cs ps ks ss] tr h]. cbn in *.
  destruct (is_active s); cbn; [| exact H].
  left. destruct (room s) as [r0 |] eqn:R.
  - assert (Hf : List.filter (fun r' => negb (Nat.eqb r' r0))
                   (connected_rooms tr) = []).
    { destruct H as [-> | (r & [= <-] & ->)]; [reflexivity |].
      cbn. rewrite Nat.eqb_refl. reflexivity. }
    destruct ss as [| [] ss]; cbn; exact Hf.
  - destruct H as [H | (r & Hr & _)]; [| discriminate].
    destruct ss as [| [] ss]; cbn; exact H.
Qed.

Lemma process_audio_chunk_rooms_in_hand audio (st : Sys) :
  rooms_in_hand st -> rooms_in_hand (process_audio_chunk audio st).2.
Proof.
  intros H. unfold rooms_in_hand in *. unfold process_audio_chunk. unfold_ops.
  destruct st as [s b [cs ps ks ss] tr h]. cbn in *.
  destruct (is_active s); cbn; [| exact H].
  destruct (audio_source s) as [src |]; cbn; [| exact H].
  destruct (frombuffer_int16 audio) as [pcm |]; cbn; [| exact H].
  destruct ks as [| [] ks]; cbn; try destruct (_ =? 0); cbn; exact H.
Qed.

Lemma run_ops_rooms_in_hand (ops : list Op) (st : Sys) :
  starts_when_idle ops st ->
  session_inv (session st) -> rooms_in_hand st ->
  rooms_in_hand (run_ops ops st).
Proof.
  revert st. induction ops as [| o ops IH]; intros st Hops Hinv Hrooms;
    [exact Hrooms |].
  destruct Hops as [Ho Hops]. cbn [run_ops].
  apply IH; [exact Hops | apply run_op_session_inv, Hinv |].
  destruct o as [sid url tok | | audio]; cbn [run_op].
  - pose proof (start_session_rooms_in_hand sid url tok st
                  (idle_no_room_connected st Hinv Hrooms Ho)) as H.
    unfold bind, ret.
    destruct (start_session sid url tok st) as [[r | x] st']; exact H.
  - apply end_session_rooms_in_hand, Hrooms.
  - apply process_audio_chunk_rooms_in_hand, Hrooms.
Qed.

(** C5, as the code has it: after any sequence of calls on a new
    [DeviceSession], an idle session has a null [session_id] and the
    session has a room exactly when it is not idle; when every
    [start_session] was given a [session_id] that is not null,
    [session_id] is non-null exactly when the session is not idle; and
    when every [start_session] was called on an idle session, at most one
    room is connected and it is the room the session holds. *)
Theorem session_fields_invariant
    (ops : list Op) (b : UMIBridge) (device : Z) (e : Env) (h : Handle) :
  let st := run_ops ops (fresh_sys b device e h) in
  let s := session st in
  (is_active s = false -> session_id s = JNull) /\
  (room s <> None <-> is_active s = true) /\
  (Forall start_has_id ops -> (session_id s <> JNull <-> is_active s = true)) /\
  (starts_when_idle ops (fresh_sys b device e h) ->
   incl (connected_rooms (trace st)) (held_rooms s) /\
   (length (connected_rooms (trace st)) <= 1)%nat).
Proof.
  intros st s.
  assert (H0 : session_inv (session (fresh_sys b device e h))).
  { unfold session_inv. cbn. repeat split; intros; congruence. }
  pose proof (run_ops_session_inv ops _ H0) as (Hid & Hroom).
  fold st s in Hid, Hroom.
  split; [exact Hid |]. split; [exact Hroom |]. split.
  - intros Hops.
    assert (H1 : identified (session (fresh_sys b device e h))).
    { unfold identified. cbn. discriminate. }
    pose proof (run_ops_identified ops _ Hops H1) as Hn. fold st s in Hn.
    unfold identified in Hn. split; [| exact Hn].
    intros Hs. destruct (is_active s) eqn:Ha; [reflexivity |].
    exfalso. apply Hs, Hid. reflexivity.
  - intros Hops.
    assert (H2 : rooms_in_hand (fresh_sys b device e h)) by (left; reflexivity).
    pose proof (run_ops_rooms_in_hand ops _ Hops H0 H2) as Hr. fold st in Hr.
    unfold held_rooms. fold s in Hr.
    destruct Hr as [-> | (r & Hr & ->)].
    + split; [intros x [] | cbn; lia].
    + unfold s. rewrite Hr. split; [apply incl_refl | cbn; lia].
Qed.

Lemma session_fields_invariant_witness :
  let st := run_ops [OpStart (JStr "abc") LIVEKIT_URL
                       (_create_token (JStr "abc") 7);
                     OpChunk [x01; x02]] idle_example in
  (session_id (session st) <> JNull <-> is_active (session st) = true) /\
  (length (connected_rooms (trace st)) <= 1)%nat.
Proof.
  pose proof (session_fields_invariant
                [OpStart (JStr "abc") LIVEKIT_URL (_create_token (JStr "abc") 7);
                 OpChunk [x01; x02]] (mkUMIBridge ∅) 7 quiet_env 0%nat)
    as (_ & _ & Hid & Hrooms).
  split.
  - apply Hid. repeat constructor; discriminate.
  - apply Hrooms. vm_compute. auto.
Defined.

(** C5 fails as stated, twice.  A [start_session] message that carries no
    [session_id] makes [msg.get('session_id')] return [None], and the
    session is then active with a null [session_id].  And a device that
    sends [start_session] for ["abc"] and then for ["xyz"] has two rooms
    connected at once, of which the session holds only the second. *)
Lemma session_invariant_counterexample :
  let st := (_handle_message start_msg_no_id idle_example).2 in
  let twice := (receive_loop [start_msg (JStr "abc"); start_msg (JStr "xyz")]
                  PeerClosed idle_example).2 in
  st = run_ops [OpStart JNull LIVEKIT_URL (_create_token JNull 7)] idle_example /\
  is_active (session st) = true /\
  session_id (session st) = JNull /\
  ~ (session_id (session st) <> JNull <-> is_active (session st) = true) /\
  twice = run_ops [OpStart (JStr "abc") LIVEKIT_URL (_create_token (JStr "abc") 7);
                   OpStart (JStr "xyz") LIVEKIT_URL (_create_token (JStr "xyz") 7)]
            idle_example /\
  connected_rooms (trace twice) = [2%nat; 0%nat] /\
  held_rooms (session twice) = [2%nat] /\
  ~ (length (connected_rooms (trace twice)) <= 1)%nat.
Proof.
  cbn zeta. split; [vm_compute; reflexivity |].
  split; [vm_compute; reflexivity |].
  split; [vm_compute; reflexivity |].
  split; [intros [_ H]; apply H; vm_compute; reflexivity |].
  split; [vm_compute; reflexivity |].
  split; [vm_compute; reflexivity |].
  split; [vm_compute; reflexivity |].
  vm_compute. lia.
Qed.

(** ** Starting a session *)

(** C1, as the code has it: [_handle_message] passes every
    [start_session] message to [DeviceSession.start_session], whose first
    statements do not look at the state.  Whatever the session was, it is
    afterwards active under the new id with the counter at zero and a room
    object made for this call, on which [connect] has been called; no room
    was disconnected on the way. *)
Theorem start_session_restarts (items : list (string * json)) (st : Sys) :
  dict_get "type" items = JStr "start_session" ->
  let sid := dict_get "session_id" items in
  let st' := (_handle_message (Text (Some (JObj items))) st).2 in
  session_id (session st') = sid /\
  is_active (session st') = true /\
  audio_frames_sent (session st') = 0 /\
  room (session st') = Some (next_handle st) /\
  count_events is_disconnect (trace st') = count_events is_disconnect (trace st) /\
  exists ok later,
    trace st' = later ++ RoomConnect (next_handle st) LIVEKIT_URL
                           (_create_token sid (device_id (session st))) ok
                      :: Log INFO (StartingSession sid) :: trace st.
Proof.
  intros Hty sid st'. subst st'. cbn [_handle_message].
  unfold msg_get, start_session. unfold_ops. rewrite Hty. cbn.
  fold sid. destruct st as [s b [cs ps ks ss] tr h].
  destruct cs as [| [] cs]; cbn;
    destruct ps as [| [] ps]; cbn;
    destruct ss as [| [] ss]; cbn;
    repeat (split; [reflexivity |]);
    eexists;
    first [ exists []; reflexivity
          | eexists [_]; reflexivity
          | eexists [_; _]; reflexivity
          | eexists [_; _; _]; reflexivity
          | eexists [_; _; _; _]; reflexivity
          | eexists [_; _; _; _; _]; reflexivity ].
Qed.

Lemma start_session_restarts_witness :
  session_id (session (_handle_message (start_msg (JStr "xyz")) started_example).2)
  = JStr "xyz".
Proof.
  apply (start_session_restarts
           [("type", JStr "start_session"); ("session_id", JStr "xyz")]
           started_example).
  reflexivity.
Defined.

(** C1 fails as stated: a device whose session ["abc"] is active and has
    sent a frame sends [start_session] for ["xyz"]; the session is not left
    as it was, it now runs ["xyz"] with the counter at zero in a new room,
    and the room of ["abc"] was never disconnected. *)
Lemma start_session_while_active_not_rejected :
  let before := started_example in
  let after := (_handle_message (start_msg (JStr "xyz")) before).2 in
  lifecycle (session before) = Active /\
  session before = {| device_id := 7; session_id := JStr "abc";
                      room := Some 0%nat; audio_source := Some 1%nat;
                      is_active := true; audio_frames_sent := 1 |} /\
  session after = {| device_id := 7; session_id := JStr "xyz";
                     room := Some 2%nat; audio_source := Some 3%nat;
                     is_active := true; audio_frames_sent := 0 |} /\
  session after <> session before /\
  count_events is_disconnect (trace after) = 0%nat.
Proof.
  cbn zeta. repeat split; try reflexivity. discriminate.
Qed.







(** ** The scenario of the protocol *)

(** [device_info], [start_session], three good frames, one frame of odd
    length, one frame the audio source refuses, then [end_session] and the
    peer closing: the device is handed [ready], [session_started] and
    [session_ended] with [frames_sent] at three. *)
Example protocol_scenario :
  let messages :=
    [Text (Some (JObj [("type", JStr "device_info"); ("device_id", JStr "esp32")]));
     start_msg (JStr "abc");
     Binary [x01; x02; x03; x04]; Binary [x05; x06]; Binary [];
     Binary [x01; x02; x03];
     Binary [x07; x08];
     Text (Some (JObj [("type", JStr "end_session")]))] in
  let out := handle_device (mkUMIBridge ∅) 7 messages PeerClosed
               (mkEnv [] [] [true; true; true; false] []) 0%nat in
  out.1 = Ok tt /\
  rev (sends (trace out.2))
  = [WsSend (TextFrame ready_msg) Sent;
     WsSend (TextFrame (session_started_msg (JStr "abc"))) Sent;
     WsSend (TextFrame (session_ended_msg (JStr "abc") 3)) Sent] /\
  omap frames_sent_of (trace out.2) = [3] /\
  devices (bridge out.2) = ∅.
Proof.
  cbn zeta. repeat split; vm_compute; reflexivity.
Qed.


Lemma agent_speaking_end_always_sent_witness :
  exists o during st',
    _forward_agent_audio (mkTrack [] true) idle_example = (Ok tt, st') /\
    trace st' = Log INFO AgentFinishedSpeaking
                  :: match o with
                     | Sent => []
                     | _ => [Log ERROR ErrorSendingMessage]
                     end
                  ++ WsSend (TextFrame (JObj [("type", JStr "agent_speaking_end")])) o
                  :: during ++ trace idle_example /\
    count_events (is_send_of_type "agent_speaking_end") during = 0%nat /\
    count_events is_send
      (match o with
       | Sent => []
       | _ => [Log ERROR ErrorSendingMessage]
       end) = 0%nat /\
    o = Sent.
Proof.
  destruct (agent_speaking_end_always_sent (mkTrack [] true) idle_example)
    as (o & during & st' & H1 & H2 & H3 & H4 & H5).
  exists o, during, st'. repeat split; try assumption. apply H5. reflexivity.
Defined.

(** * Further properties *)

(** ** Steps shared by the properties below *)

Lemma send_message_effect (msg : json) (st : Sys) :
  let o := next_send_outcome (send_results (env st)) in
  exists st',
    send_message msg st = (Ok tt, st') /\
    trace st' = send_error_log o ++ WsSend (TextFrame msg) o :: trace st /\
    session st' = session st /\
    bridge st' = bridge st /\
    next_handle st' = next_handle st /\
    connect_results (env st') = connect_results (env st) /\
    publish_results (env st') = publish_results (env st) /\
    capture_results (env st') = capture_results (env st) /\
    send_results (env st') = tl (send_results (env st)).
Proof.
  unfold send_message. unfold_ops. destruct st as [s b [cs ps ks ss] tr h].
  destruct ss as [| o ss]; cbn.
  - eexists. repeat split.
  - destruct o; cbn; eexists; repeat split.
Qed.

Lemma cleanup_run (ws : Z) (st : Sys) :
  cleanup ws st
  = (Ok tt,
     with_event (Log INFO (CleanedUp ws))
       (with_devices (delete ws)
          (if is_active (session st) then (end_session st).2 else st))).
Proof.
  unfold cleanup. unfold bind at 1. unfold get_self at 1. unfold bind at 1.
  assert (Hrun : (if is_active (session st) then end_session else ret tt) st
                 = (Ok tt, if is_active (session st) then (end_session st).2
                           else st)).
  { destruct (is_active (session st)); [| reflexivity].
    destruct (end_session_returns st) as (st' & -> & _). reflexivity. }
  rewrite Hrun.
  set (st1 := if is_active (session st) then (end_session st).2 else st).
  unfold_ops. destruct (devices (bridge st1) !! ws) eqn:E; [reflexivity |].
  cbn. unfold with_devices. rewrite (delete_id _ _ E).
  destruct st1 as [s [d] en tr h]. reflexivity.
Qed.

Lemma serve_device_run (ws : Z) (messages : list Message) (ending : LoopEnd)
    (st : Sys) :
  serve_device ws messages ending st
  = cleanup ws (guarded_loop ws messages ending st).2.
Proof.
  unfold serve_device, try_finally.
  pose proof (guarded_loop_returns ws messages ending st) as Hr.
  destruct (guarded_loop ws messages ending st) as [r st1]. cbn [fst snd] in *.
  subst r. rewrite cleanup_run. reflexivity.
Qed.

Lemma raising_message_ends_loop (ws : Z) (message : Message)
    (rest : list Message) (ending : LoopEnd) (x : exn) (st st1 : Sys) :
  _handle_message message st = (Raise x, st1) ->
  guarded_loop ws (message :: rest) ending st
  = (Ok tt, with_event (match x with
                        | ConnectionClosed => Log INFO (DeviceDisconnected ws)
                        | _ => Log ERROR ErrorInLoop
                        end) st1).
Proof.
  intros H. unfold guarded_loop, try_except. cbn [receive_loop]. unfold bind.
  rewrite H. destruct x; reflexivity.
Qed.

(** ** Messages to the device *)

(** X1: [send_message] never raises: it makes one call on the websocket
    with the message as a text frame, logs an error when that call fails,
    and leaves the session, the registry and the handles alone. *)
Theorem send_message_never_raises (msg : json) (st : Sys) :
  let o := next_send_outcome (send_results (env st)) in
  exists st',
    send_message msg st = (Ok tt, st') /\
    trace st' = send_error_log o ++ WsSend (TextFrame msg) o :: trace st /\
    session st' = session st /\
    bridge st' = bridge st /\
    next_handle st' = next_handle st /\
    send_results (env st') = tl (send_results (env st)).
Proof.
  intros o.
  destruct (send_message_effect msg st)
    as (st' & Hrun & Ht & Hs & Hb & Hh & _ & _ & _ & He).
  exists st'. repeat split; assumption.
Qed.

(** ** Text frames *)

(** X2: a text frame that is not JSON is logged as a warning and dropped;
    any run of such frames leaves the session as it was and the receive
    loop goes on with the message after them. *)
Theorem invalid_json_is_dropped (n : nat) (rest : list Message)
    (ending : LoopEnd) (st : Sys) :
  let st' := Nat.iter n (with_event (Log WARNING InvalidJSON)) st in
  _handle_message (Text None) st
  = (Ok tt, with_event (Log WARNING InvalidJSON) st) /\
  receive_loop (replicate n (Text None) ++ rest) ending st
  = receive_loop rest ending st' /\
  session st' = session st /\
  bridge st' = bridge st /\
  env st' = env st.
Proof.
  intros st'. split; [reflexivity |]. subst st'.
  revert st. induction n as [| n IH]; intros st.
  - repeat split.
  - cbn [replicate app receive_loop]. unfold bind at 1.
    change (_handle_message (Text None) st)
      with (Ok tt, with_event (Log WARNING InvalidJSON) st).
    cbn iota. destruct (IH (with_event (Log WARNING InvalidJSON) st))
      as (Hl & Hs & Hb & He).
    rewrite Nat.iter_succ_r. repeat split; assumption.
Qed.

(** X3: a text frame whose JSON is not an object (a number, a string, a
    list, [null]) makes [msg.get] raise [AttributeError], which
    [_handle_message] does not catch.  The receive loop ends there: the
    messages after it are never handled, the error is logged, and the
    cleanup ends the session and deletes the device's key. *)
Theorem non_object_json_ends_connection (v : json) (rest : list Message)
    (ending : LoopEnd) (ws : Z) (st : Sys) :
  is_object v = false ->
  _handle_message (Text (Some v)) st = (Raise AttributeError, st) /\
  serve_device ws (Text (Some v) :: rest) ending st
  = cleanup ws (with_event (Log ERROR ErrorInLoop) st) /\
  exists st',
    serve_device ws (Text (Some v) :: rest) ending st = (Ok tt, st') /\
    is_active (session st') = false /\
    devices (bridge st') !! ws = None.
Proof.
  intros Hv.
  assert (Hm : _handle_message (Text (Some v)) st = (Raise AttributeError, st)).
  { destruct v; try discriminate; reflexivity. }
  split; [exact Hm |].
  assert (Hs : serve_device ws (Text (Some v) :: rest) ending st
               = cleanup ws (with_event (Log ERROR ErrorInLoop) st)).
  { rewrite serve_device_run.
    rewrite (raising_message_ends_loop ws _ rest ending _ _ _ Hm).
    reflexivity. }
  split; [exact Hs |].
  rewrite Hs, cleanup_run. eexists. split; [reflexivity |].
  cbn [with_event with_devices session bridge devices].
  split; [| apply lookup_delete_eq].
  change (session (with_event (Log ERROR ErrorInLoop) st)) with (session st).
  destruct (is_active (session st)) eqn:Ha; [| exact Ha].
  destruct (end_session_returns (with_event (Log ERROR ErrorInLoop) st))
    as (st2 & -> & Hi & _). exact Hi.
Qed.

Lemma non_object_json_ends_connection_witness :
  _handle_message (Text (Some (JArr [JNum 1]))) active_example
  = (Raise AttributeError, active_example).
Proof.
  apply (non_object_json_ends_connection (JArr [JNum 1]) [] PeerClosed 7
           active_example).
  reflexivity.
Defined.

(** X4: a JSON object whose [type] is none of [device_info],
    [start_session], [end_session] (an unknown string, a missing key, a
    value that is not a string) is ignored: nothing is logged, sent or
    changed. *)
Theorem unknown_type_is_ignored (items : list (string * json)) (st : Sys) :
  str_eq (dict_get "type" items) "device_info" = false ->
  str_eq (dict_get "type" items) "start_session" = false ->
  str_eq (dict_get "type" items) "end_session" = false ->
  _handle_message (Text (Some (JObj items))) st = (Ok tt, st).
Proof.
  intros H1 H2 H3. cbn [_handle_message]. unfold msg_get. unfold_ops.
  rewrite H1, H2, H3. reflexivity.
Qed.

Lemma unknown_type_is_ignored_witness :
  _handle_message (Text (Some (JObj [("session_id", JStr "abc")])))
    active_example
  = (Ok tt, active_example).
Proof.
  apply (unknown_type_is_ignored [("session_id", JStr "abc")] active_example);
    reflexivity.
Defined.

(** X5: [device_info] is answered with [ready] in every state of the
    session: one text frame is handed to the websocket after the device
    id (absent: [None]) is logged, the session and the registry are not
    touched, and a failing send is logged, not raised. *)
Theorem device_info_answered_with_ready (items : list (string * json))
    (st : Sys) :
  dict_get "type" items = JStr "device_info" ->
  let o := next_send_outcome (send_results (env st)) in
  exists st',
    _handle_message (Text (Some (JObj items))) st = (Ok tt, st') /\
    trace st' = send_error_log o
                  ++ WsSend (TextFrame (JObj [("type", JStr "ready")])) o
                  :: Log INFO (DeviceInfo (dict_get "device_id" items))
                  :: trace st /\
    session st' = session st /\
    bridge st' = bridge st.
Proof.
  intros Hty o. cbn [_handle_message]. unfold msg_get.
  unfold try_except, bind at 1, ret at 1. unfold bind at 1, ret at 1.
  rewrite Hty. cbn [str_eq String.eqb Ascii.eqb Bool.eqb].
  unfold bind at 1, ret at 1. unfold bind at 1, logger at 1, emit at 1.
  destruct (send_message_effect ready_msg
              (with_event (Log INFO (DeviceInfo (dict_get "device_id" items))) st))
    as (st' & Hrun & Ht & Hs & Hb & _).
  rewrite Hrun. exists st'. repeat split; assumption.
Qed.

Lemma device_info_answered_with_ready_witness :
  exists st',
    _handle_message (Text (Some (JObj [("type", JStr "device_info")])))
      active_example = (Ok tt, st') /\
    trace st' = [WsSend (TextFrame (JObj [("type", JStr "ready")])) Sent;
                 Log INFO (DeviceInfo JNull)] /\
    session st' = session active_example /\
    bridge st' = bridge active_example.
Proof.
  apply (device_info_answered_with_ready [("type", JStr "device_info")]
           active_example).
  reflexivity.
Defined.

(** ** A session from start to end *)

Lemma start_session_ok (sid : json) (url : string) (tok : Token) (st : Sys) :
  next_answer (connect_results (env st)) = true ->
  next_answer (publish_results (env st)) = true ->
  let r := next_handle st in
  let src := S (next_handle st) in
  let o := next_send_outcome (send_results (env st)) in
  exists st',
    start_session sid url tok st = (Ok r, st') /\
    session st' = {| device_id := device_id (session st); session_id := sid;
                     room := Some r; audio_source := Some src;
                     is_active := true; audio_frames_sent := 0 |} /\
    trace st' = send_error_log o
                  ++ [WsSend (TextFrame (session_started_msg sid)) o;
                      Log INFO PublishedMicTrack;
                      PublishTrack r src true;
                      Log INFO (ConnectedToRoom sid);
                      RoomConnect r url tok true;
                      Log INFO (StartingSession sid)]
                  ++ trace st /\
    bridge st' = bridge st /\
    next_handle st' = S (S (next_handle st)) /\
    capture_results (env st') = capture_results (env st).
Proof.
  intros Hc Hp. unfold start_session. unfold_ops.
  destruct st as [s b [cs ps ks ss] tr h]. cbn in Hc, Hp.
  destruct cs as [| [] cs]; try discriminate;
    destruct ps as [| [] ps]; try discriminate;
    destruct ss as [| [] ss]; cbn; eexists; repeat split.
Qed.

Lemma end_session_effect (st : Sys) :
  is_active (session st) = true ->
  let s := session st in
  let o := next_send_outcome (send_results (env st)) in
  exists st',
    end_session st = (Ok tt, st') /\
    session st' = {| device_id := device_id s; session_id := JNull;
                     room := None; audio_source := None; is_active := false;
                     audio_frames_sent := audio_frames_sent s |} /\
    trace st' = send_error_log o
                  ++ WsSend (TextFrame (session_ended_msg (session_id s)
                                          (audio_frames_sent s))) o
                  :: match room s with
                     | Some r => [RoomDisconnect r]
                     | None => []
                     end
                  ++ Log INFO (EndingSession (session_id s)) :: trace st /\
    bridge st' = bridge st /\
    next_handle st' = next_handle st.
Proof.
  intros Ha. unfold end_session. unfold_ops.
  destruct st as [s b [cs ps ks ss] tr h]. cbn in *. rewrite Ha. cbn.
  destruct (room s) eqn:R; destruct ss as [| [] ss]; cbn;
    eexists; (split; [reflexivity |]);
    unfold set_session_id, set_audio_source, set_is_active, set_room; cbn;
    rewrite ?R; repeat split.
Qed.

(** X6: when [connect] and [publish_track] succeed, [start_session]
    returns the new room and the session is [Active] under the given id
    with the counter at zero, whatever it was before.  The room and the
    audio source are two new objects; the room is connected, then the
    track published, then [session_started] handed to the websocket.  A
    failing send of [session_started] is only logged: the session is
    [Active] all the same. *)
Theorem start_session_success (sid : json) (url : string) (tok : Token)
    (st : Sys) :
  next_answer (connect_results (env st)) = true ->
  next_answer (publish_results (env st)) = true ->
  let r := next_handle st in
  let src := S (next_handle st) in
  let o := next_send_outcome (send_results (env st)) in
  exists st',
    start_session sid url tok st = (Ok r, st') /\
    session st' = {| device_id := device_id (session st); session_id := sid;
                     room := Some r; audio_source := Some src;
                     is_active := true; audio_frames_sent := 0 |} /\
    lifecycle (session st') = Active /\
    trace st' = send_error_log o
                  ++ [WsSend (TextFrame
                              (JObj [("type", JStr "session_started");
                                     ("session_id", sid)])) o;
                      Log INFO PublishedMicTrack;
                      PublishTrack r src true;
                      Log INFO (ConnectedToRoom sid);
                      RoomConnect r url tok true;
                      Log INFO (StartingSession sid)]
                  ++ trace st.
Proof.
  intros Hc Hp r src o.
  destruct (start_session_ok sid url tok st Hc Hp)
    as (st' & Hrun & Hs & Ht & _).
  exists st'. split; [exact Hrun |]. split; [exact Hs |].
  split; [rewrite Hs; reflexivity | exact Ht].
Qed.

Lemma start_session_success_witness :
  exists st',
    start_session (JStr "xyz") LIVEKIT_URL (_create_token (JStr "xyz") 7)
      active_example = (Ok 2%nat, st') /\
    session st' = {| device_id := 7; session_id := JStr "xyz";
                     room := Some 2%nat; audio_source := Some 3%nat;
                     is_active := true; audio_frames_sent := 0 |} /\
    lifecycle (session st') = Active /\
    trace st' = [WsSend (TextFrame
                           (JObj [("type", JStr "session_started");
                                  ("session_id", JStr "xyz")])) Sent;
                 Log INFO PublishedMicTrack;
                 PublishTrack 2%nat 3%nat true;
                 Log INFO (ConnectedToRoom (JStr "xyz"));
                 RoomConnect 2%nat LIVEKIT_URL (_create_token (JStr "xyz") 7) true;
                 Log INFO (StartingSession (JStr "xyz"))].
Proof.
  apply (start_session_success (JStr "xyz") LIVEKIT_URL
           (_create_token (JStr "xyz") 7) active_example);
    reflexivity.
Defined.

(** X7: [end_session] on an active session disconnects the room the
    session holds, once, then hands [session_ended] with the session's id
    and counter to the websocket, and clears [session_id], [room] and
    [audio_source].  It does not reset [audio_frames_sent]: the counter
    keeps its value until the next [start_session].  A failing send is
    only logged. *)
Theorem end_session_releases_and_notifies (st : Sys) :
  is_active (session st) = true ->
  let s := session st in
  let o := next_send_outcome (send_results (env st)) in
  exists st',
    end_session st = (Ok tt, st') /\
    session st' = {| device_id := device_id s; session_id := JNull;
                     room := None; audio_source := None; is_active := false;
                     audio_frames_sent := audio_frames_sent s |} /\
    trace st' = send_error_log o
                  ++ WsSend (TextFrame (session_ended_msg (session_id s)
                                          (audio_frames_sent s))) o
                  :: match room s with
                     | Some r => [RoomDisconnect r]
                     | None => []
                     end
                  ++ Log INFO (EndingSession (session_id s)) :: trace st /\
    count_events is_disconnect (trace st')
    = (count_events is_disconnect (trace st)
       + match room s with
         | Some _ => 1
         | None => 0
         end)%nat.
Proof.
  intros Ha s o.
  destruct (end_session_effect st Ha) as (st' & Hrun & Hs & Ht & _).
  exists st'. split; [exact Hrun |]. split; [exact Hs |].
  split; [exact Ht |]. rewrite Ht. fold s o.
  rewrite count_events_app. cbn [count_events is_disconnect].
  rewrite count_events_app.
  destruct o, (room s); cbn; lia.
Qed.

Lemma end_session_releases_and_notifies_witness :
  exists st',
    end_session active_example = (Ok tt, st') /\
    session st' = {| device_id := 7; session_id := JNull;
                     room := None; audio_source := None; is_active := false;
                     audio_frames_sent := 5 |} /\
    trace st' = [WsSend (TextFrame (session_ended_msg (JStr "abc") 5)) Sent;
                 RoomDisconnect 0%nat;
                 Log INFO (EndingSession (JStr "abc"))] /\
    count_events is_disconnect (trace st') = 1%nat.
Proof.
  apply (end_session_releases_and_notifies active_example). reflexivity.
Defined.

Lemma sends_send_error_log (o : SendOutcome) (tr : list Event) :
  sends (send_error_log o ++ tr) = sends tr.
Proof. destruct o; reflexivity. Qed.

Lemma count_send_error_log p (o : SendOutcome) (tr : list Event) :
  p (Log ERROR ErrorSendingMessage) = false ->
  count_events p (send_error_log o ++ tr) = count_events p tr.
Proof. intros H. destruct o; cbn; rewrite ?H; reflexivity. Qed.

Lemma cleanup_active (ws : Z) (st : Sys) :
  is_active (session st) = true ->
  let s := session st in
  let o := next_send_outcome (send_results (env st)) in
  exists st',
    cleanup ws st = (Ok tt, st') /\
    session st' = {| device_id := device_id s; session_id := JNull;
                     room := None; audio_source := None; is_active := false;
                     audio_frames_sent := audio_frames_sent s |} /\
    devices (bridge st') = delete ws (devices (bridge st)) /\
    sends (trace st')
    = WsSend (TextFrame (session_ended_msg (session_id s)
                           (audio_frames_sent s))) o :: sends (trace st) /\
    count_events is_disconnect (trace st')
    = (count_events is_disconnect (trace st)
       + match room s with
         | Some _ => 1
         | None => 0
         end)%nat.
Proof.
  intros Ha s o.
  destruct (end_session_effect st Ha) as (st1 & Hrun & Hs & Ht & Hb & _).
  fold s o in Hs, Ht.
  rewrite cleanup_run, Ha, Hrun. cbn [snd]. eexists. split; [reflexivity |].
  cbn [with_event with_devices session bridge devices trace].
  split; [exact Hs |]. split; [rewrite Hb; reflexivity |].
  rewrite Ht. split.
  - unfold sends at 1. cbn [List.filter is_send]. fold (sends (send_error_log o ++
      WsSend (TextFrame (session_ended_msg (session_id s) (audio_frames_sent s))) o
      :: match room s with
         | Some r => [RoomDisconnect r]
         | None => []
         end ++ Log INFO (EndingSession (session_id s)) :: trace st)).
    rewrite sends_send_error_log. unfold sends. cbn [List.filter is_send].
    destruct (room s); reflexivity.
  - cbn [count_events is_disconnect].
    rewrite count_send_error_log by reflexivity.
    cbn [count_events is_disconnect]. rewrite count_events_app.
    destruct (room s); cbn; lia.
Qed.

Lemma publish_attempt_fails (items : list (string * json)) (more : list bool)
    (st : Sys) :
  dict_get "type" items = JStr "start_session" ->
  next_answer (connect_results (env st)) = true ->
  publish_results (env st) = false :: more ->
  exists st1,
    _handle_message (Text (Some (JObj items))) st = (Raise PublishError, st1) /\
    session st1 = {| device_id := device_id (session st);
                     session_id := dict_get "session_id" items;
                     room := Some (next_handle st);
                     audio_source := Some (S (next_handle st));
                     is_active := true; audio_frames_sent := 0 |} /\
    bridge st1 = bridge st /\
    sends (trace st1) = sends (trace st) /\
    count_events is_disconnect (trace st1)
    = count_events is_disconnect (trace st) /\
    send_results (env st1) = send_results (env st).
Proof.
  intros Hty Hc Hp.
  destruct st as [s b [cs ps ks ss] tr h]. cbn in Hc, Hp. subst ps.
  cbn [_handle_message].
  unfold msg_get, start_session. unfold_ops. rewrite Hty.
  destruct cs as [| [] cs]; try discriminate; cbn; eexists; repeat split.
Qed.

(** X8: when the room connects but [publish_track] fails, the exception
    leaves [start_session] and [_handle_message] with the session looking
    [Active] (the audio source is already set) although [session_started]
    was never sent.  The receive loop ends on it, later messages are not
    handled, and the cleanup disconnects the new room, hands
    [session_ended] with [frames_sent] zero to the websocket and clears
    the session. *)
Theorem publish_failure_ends_connection
    (items : list (string * json)) (rest : list Message) (ending : LoopEnd)
    (ws : Z) (more : list bool) (st : Sys) :
  dict_get "type" items = JStr "start_session" ->
  next_answer (connect_results (env st)) = true ->
  publish_results (env st) = false :: more ->
  let sid := dict_get "session_id" items in
  let message := Text (Some (JObj items)) in
  (exists st1,
      _handle_message message st = (Raise PublishError, st1) /\
      lifecycle (session st1) = Active /\
      sends (trace st1) = sends (trace st)) /\
  (exists o st',
      serve_device ws (message :: rest) ending st = (Ok tt, st') /\
      cleared (session st') /\
      sends (trace st')
      = WsSend (TextFrame (session_ended_msg sid 0)) o :: sends (trace st) /\
      count_events is_disconnect (trace st')
      = S (count_events is_disconnect (trace st))).
Proof.
  intros Hty Hc Hp sid message.
  destruct (publish_attempt_fails items more st Hty Hc Hp)
    as (st1 & Hrun & Hs & Hb & Ht & Hd & He).
  split.
  - exists st1. split; [exact Hrun |]. split; [| exact Ht].
    rewrite Hs. reflexivity.
  - set (st2 := with_event (Log ERROR ErrorInLoop) st1).
    assert (Ha : is_active (session st2) = true).
    { subst st2. cbn [with_event session]. rewrite Hs. reflexivity. }
    destruct (cleanup_active ws st2 Ha) as (st' & Hrun' & Hs' & _ & Ht' & Hd').
    exists (next_send_outcome (send_results (env st2))), st'.
    split.
    { rewrite serve_device_run.
      unfold message.
      rewrite (raising_message_ends_loop ws _ rest ending _ _ _ Hrun).
      exact Hrun'. }
    split; [rewrite Hs'; repeat split |].
    subst st2. cbn [with_event session trace] in Ht', Hd'.
    change (sends (Log ERROR ErrorInLoop :: trace st1))
      with (sends (trace st1)) in Ht'.
    change (count_events is_disconnect (Log ERROR ErrorInLoop :: trace st1))
      with (count_events is_disconnect (trace st1)) in Hd'.
    rewrite Hs in Ht', Hd'. cbn [session_id audio_frames_sent room] in Ht', Hd'.
    split.
    + rewrite Ht', Ht. reflexivity.
    + rewrite Hd', Hd. lia.
Qed.

Lemma publish_failure_ends_connection_witness :
  exists o st',
    serve_device 7 [start_msg (JStr "abc"); Binary [x01; x02]] PeerClosed
      (fresh_sys (mkUMIBridge ∅) 7 (mkEnv [] [false] [] []) 0%nat)
    = (Ok tt, st') /\
    cleared (session st') /\
    sends (trace st')
    = WsSend (TextFrame (session_ended_msg (JStr "abc") 0)) o :: [] /\
    count_events is_disconnect (trace st') = 1%nat.
Proof.
  apply (proj2 (publish_failure_ends_connection
                  [("type", JStr "start_session"); ("session_id", JStr "abc")]
                  [Binary [x01; x02]] PeerClosed 7 []
                  (fresh_sys (mkUMIBridge ∅) 7 (mkEnv [] [false] [] []) 0%nat)
                  eq_refl eq_refl eq_refl)).
Defined.

(** ** Ingest *)

Lemma tobytes_length (samples : list Z) :
  length (tobytes samples) = (2 * length samples)%nat.
Proof.
  induction samples as [| v l IH]; [reflexivity |].
  unfold tobytes in *. cbn [flat_map int16_to_bytes app length].
  rewrite IH. lia.
Qed.

Lemma frombuffer_whole (audio : list byte) :
  whole_samples audio = true ->
  exists pcm,
    frombuffer_int16 audio = Some pcm /\
    AudioFrame_create_filled SAMPLE_RATE CHANNELS pcm = ingest_frame audio.
Proof.
  intros H. destruct (frombuffer_even audio H) as (pcm & Hd & Hb).
  exists pcm. split; [exact Hd |].
  unfold AudioFrame_create_filled, ingest_frame. rewrite Hb. f_equal.
  f_equal. rewrite <- Hb, tobytes_length.
  rewrite Nat.mul_comm, Nat.div_mul by lia. reflexivity.
Qed.

Lemma frombuffer_not_whole (audio : list byte) :
  whole_samples audio = false -> frombuffer_int16 audio = None.
Proof.
  intros H. apply frombuffer_odd. unfold whole_samples in H.
  rewrite <- Nat.negb_even, H. reflexivity.
Qed.

Lemma chunk_forwarded (audio : list byte) (src : Handle) (st : Sys) :
  is_active (session st) = true ->
  audio_source (session st) = Some src ->
  whole_samples audio = true ->
  next_answer (capture_results (env st)) = true ->
  let n := audio_frames_sent (session st) + 1 in
  exists st',
    process_audio_chunk audio st = (Ok tt, st') /\
    session st' = set_audio_frames_sent n (session st) /\
    trace st' = (if n mod 33 =? 0 then [Log INFO (Streaming n)] else [])
                  ++ CaptureFrame src (ingest_frame audio) true :: trace st /\
    bridge st' = bridge st /\
    capture_results (env st') = tl (capture_results (env st)).
Proof.
  intros Ha Hsrc Hw Hc n.
  destruct (frombuffer_whole audio Hw) as (pcm & Hd & Hf).
  unfold process_audio_chunk. unfold_ops.
  destruct st as [s b [cs ps ks ss] tr h]. cbn in *.
  rewrite Ha, Hsrc, Hd, Hf. subst n.
  destruct ks as [| [] ks]; try discriminate; cbn;
    destruct (_ =? 0); cbn; eexists; repeat split.
Qed.

Lemma chunk_refused (audio : list byte) (src : Handle) (st : Sys) :
  is_active (session st) = true ->
  audio_source (session st) = Some src ->
  whole_samples audio = true ->
  next_answer (capture_results (env st)) = false ->
  exists st',
    process_audio_chunk audio st = (Ok tt, st') /\
    session st' = session st /\
    trace st' = Log ERROR ErrorProcessingAudio
                  :: CaptureFrame src (ingest_frame audio) false :: trace st /\
    bridge st' = bridge st /\
    capture_results (env st') = tl (capture_results (env st)).
Proof.
  intros Ha Hsrc Hw Hc.
  destruct (frombuffer_whole audio Hw) as (pcm & Hd & Hf).
  unfold process_audio_chunk. unfold_ops.
  destruct st as [s b [cs ps ks ss] tr h]. cbn in *.
  rewrite Ha, Hsrc, Hd, Hf.
  destruct ks as [| [] ks]; try discriminate; cbn; eexists; repeat split.
Qed.

(** X9: while [Active], a binary frame of whole samples that the audio
    source takes is forwarded byte for byte as one 16 kHz mono frame of
    half as many samples as bytes, and the counter goes up by one; the
    progress line is logged exactly when the new count is a multiple of
    33.  Nothing else in the session changes. *)
Theorem frame_forwarded_byte_exact (audio : list byte) (src : Handle)
    (st : Sys) :
  is_active (session st) = true ->
  audio_source (session st) = Some src ->
  whole_samples audio = true ->
  next_answer (capture_results (env st)) = true ->
  let n := audio_frames_sent (session st) + 1 in
  exists st',
    process_audio_chunk audio st = (Ok tt, st') /\
    session st' = set_audio_frames_sent n (session st) /\
    trace st' = (if n mod 33 =? 0 then [Log INFO (Streaming n)] else [])
                  ++ CaptureFrame src
                       {| data := audio; sample_rate := 16000;
                          num_channels := 1;
                          samples_per_channel := Z.of_nat (length audio / 2) |}
                       true
                  :: trace st.
Proof.
  intros Ha Hsrc Hw Hc n.
  destruct (chunk_forwarded audio src st Ha Hsrc Hw Hc)
    as (st' & Hrun & Hs & Ht & _).
  exists st'. repeat split; assumption.
Qed.

Lemma frame_forwarded_byte_exact_witness :
  exists st',
    process_audio_chunk [x01; x02; x03; x04] active_example = (Ok tt, st') /\
    session st' = set_audio_frames_sent 6 (session active_example) /\
    trace st' = [CaptureFrame 1%nat
                   {| data := [x01; x02; x03; x04]; sample_rate := 16000;
                      num_channels := 1; samples_per_channel := 2 |} true].
Proof.
  apply (frame_forwarded_byte_exact [x01; x02; x03; x04] 1%nat active_example);
    reflexivity.
Defined.

(** X10: while [Active], a frame of whole samples that the audio source
    refuses is logged and skipped: the counter and the rest of the session
    are as before, no exception leaves [process_audio_chunk], and the
    receive loop goes on with the next message. *)
Theorem refused_frame_is_skipped (audio : list byte) (src : Handle)
    (rest : list Message) (ending : LoopEnd) (st : Sys) :
  is_active (session st) = true ->
  audio_source (session st) = Some src ->
  whole_samples audio = true ->
  next_answer (capture_results (env st)) = false ->
  exists st',
    process_audio_chunk audio st = (Ok tt, st') /\
    session st' = session st /\
    trace st' = Log ERROR ErrorProcessingAudio
                  :: CaptureFrame src (ingest_frame audio) false :: trace st /\
    receive_loop (Binary audio :: rest) ending st
    = receive_loop rest ending st'.
Proof.
  intros Ha Hsrc Hw Hc.
  destruct (chunk_refused audio src st Ha Hsrc Hw Hc)
    as (st' & Hrun & Hs & Ht & _).
  exists st'. split; [exact Hrun |]. split; [exact Hs |].
  split; [exact Ht |].
  cbn [receive_loop _handle_message]. unfold bind. rewrite Hrun. reflexivity.
Qed.

Lemma refused_frame_is_skipped_witness :
  exists st',
    process_audio_chunk [x01; x02] (with_env (mkEnv [] [] [false] []) active_example)
    = (Ok tt, st') /\
    session st' = session active_example /\
    trace st' = [Log ERROR ErrorProcessingAudio;
                 CaptureFrame 1%nat (ingest_frame [x01; x02]) false] /\
    receive_loop [Binary [x01; x02]] PeerClosed
      (with_env (mkEnv [] [] [false] []) active_example)
    = receive_loop [] PeerClosed st'.
Proof.
  apply (refused_frame_is_skipped [x01; x02] 1%nat [] PeerClosed
           (with_env (mkEnv [] [] [false] []) active_example));
    reflexivity.
Defined.

Lemma chunk_malformed (audio : list byte) (src : Handle) (st : Sys) :
  is_active (session st) = true ->
  audio_source (session st) = Some src ->
  whole_samples audio = false ->
  process_audio_chunk audio st
  = (Ok tt, with_event (Log ERROR ErrorProcessingAudio) st).
Proof.
  intros Ha Hsrc Hw. unfold process_audio_chunk. unfold_ops.
  rewrite Ha, Hsrc, (frombuffer_not_whole _ Hw). reflexivity.
Qed.

Lemma all_true_next (answers : list bool) :
  Forall (eq true) answers ->
  next_answer answers = true /\ Forall (eq true) (tl answers).
Proof.
  intros H. destruct H as [| b l Hb Hl]; cbn; auto.
Qed.

(** X11: over a run of binary frames received while [Active], with an
    audio source that takes every frame, the frames captured are exactly
    the frames of whole samples, each once and in the order of arrival;
    the frames with an odd number of bytes are left out, the counter goes
    up by the number of frames captured, and the session stays
    [Active]. *)
Theorem ingest_keeps_order (audios : list (list byte)) (ending : LoopEnd)
    (src : Handle) (st : Sys) :
  is_active (session st) = true ->
  audio_source (session st) = Some src ->
  Forall (eq true) (capture_results (env st)) ->
  let st' := (receive_loop (map Binary audios) ending st).2 in
  let taken := List.filter whole_samples audios in
  captured (trace st') = rev (map ingest_frame taken) ++ captured (trace st) /\
  audio_frames_sent (session st')
  = audio_frames_sent (session st) + Z.of_nat (length taken) /\
  lifecycle (session st') = Active.
Proof.
  revert st. induction audios as [| audio audios IH]; intros st Ha Hsrc Hall.
  - cbn. assert (H : (receive_loop [] ending st).2 = st)
      by (destruct ending; reflexivity).
    cbn [receive_loop] in H |- *. rewrite H.
    split; [reflexivity |]. split; [lia |].
    unfold lifecycle. rewrite Ha, Hsrc. reflexivity.
  - assert (Hstep : forall st1,
               process_audio_chunk audio st = (Ok tt, st1) ->
               receive_loop (map Binary (audio :: audios)) ending st
               = receive_loop (map Binary audios) ending st1).
    { intros st1 H. cbn [map receive_loop _handle_message]. unfold bind.
      rewrite H. reflexivity. }
    cbn zeta. cbn [List.filter].
    destruct (whole_samples audio) eqn:Hw.
    + destruct (all_true_next _ Hall) as [Hnext Htl].
      destruct (chunk_forwarded audio src st Ha Hsrc Hw Hnext)
        as (st1 & Hrun & Hs & Ht & _ & Hc).
      rewrite (Hstep _ Hrun).
      assert (Ha1 : is_active (session st1) = true) by (rewrite Hs; exact Ha).
      assert (Hsrc1 : audio_source (session st1) = Some src)
        by (rewrite Hs; exact Hsrc).
      rewrite <- Hc in Htl.
      destruct (IH st1 Ha1 Hsrc1 Htl) as (Hcap & Hcnt & Hlc).
      split; [| split; [| exact Hlc]].
      * rewrite Hcap, Ht. cbn [map rev length].
        rewrite <- app_assoc. f_equal.
        destruct (_ =? 0); reflexivity.
      * rewrite Hcnt, Hs. cbn [set_audio_frames_sent audio_frames_sent length].
        lia.
    + rewrite (Hstep _ (chunk_malformed audio src st Ha Hsrc Hw)).
      destruct (IH (with_event (Log ERROR ErrorProcessingAudio) st) Ha Hsrc Hall)
        as (Hcap & Hcnt & Hlc).
      split; [exact Hcap |]. split; [exact Hcnt | exact Hlc].
Qed.

Lemma ingest_keeps_order_witness :
  captured (trace (receive_loop
                     (map Binary [[x01; x02]; [x03]; [x04; x05; x06; x07]])
                     PeerClosed active_example).2)
  = [ingest_frame [x04; x05; x06; x07]; ingest_frame [x01; x02]].
Proof.
  apply (ingest_keeps_order [[x01; x02]; [x03]; [x04; x05; x06; x07]]
           PeerClosed 1%nat active_example);
    [reflexivity | reflexivity | constructor].
Defined.

(** ** Playback *)

Lemma forward_frames_events (fs : list AudioFrame) (raises_at_end : bool)
    (st : Sys) :
  exists during,
    trace (forward_frames fs raises_at_end st).2 = during ++ trace st /\
    forallb is_binary_send_or_log during = true /\
    session (forward_frames fs raises_at_end st).2 = session st /\
    bridge (forward_frames fs raises_at_end st).2 = bridge st.
Proof.
  revert st. induction fs as [| frame rest IH]; intros st.
  - exists []. cbn [forward_frames]. unfold_ops.
    destruct raises_at_end; cbn; auto.
  - cbn [forward_frames]. unfold bind at 1.
    destruct (playback_payload frame) as [payload |].
    + unfold_ops. destruct st as [s b [cs ps ks ss] tr h].
      destruct ss as [| [] ss]; cbn.
      * match goal with |- context [forward_frames rest _ ?st1] =>
          destruct (IH st1) as (during & Ht & Hc & Hs & Hb) end.
        exists (during ++ [WsSend (BinaryFrame payload) Sent]).
        rewrite Ht, Hs, Hb, forallb_app, Hc. cbn. rewrite <- app_assoc. auto.
      * match goal with |- context [forward_frames rest _ ?st1] =>
          destruct (IH st1) as (during & Ht & Hc & Hs & Hb) end.
        exists (during ++ [WsSend (BinaryFrame payload) Sent]).
        rewrite Ht, Hs, Hb, forallb_app, Hc. cbn. rewrite <- app_assoc. auto.
      * eexists [_; _]. repeat split.
      * eexists [_]. repeat split.
    + exists []. unfold_ops. cbn. auto.
Qed.

Lemma count_in_playback_events p (l : list Event) :
  (forall e, is_binary_send_or_log e = true -> p e = false) ->
  forallb is_binary_send_or_log l = true ->
  count_events p l = 0%nat.
Proof.
  intros Hp. induction l as [| e l IH]; [reflexivity |].
  cbn [forallb count_events]. intros H.
  apply andb_true_iff in H as [He Hl]. rewrite (Hp e He), (IH Hl). reflexivity.
Qed.

Lemma playback_run (track : Track) (st : Sys) :
  let o1 := next_send_outcome (send_results (env st)) in
  exists during o2 st',
    _forward_agent_audio track st = (Ok tt, st') /\
    trace st'
    = Log INFO AgentFinishedSpeaking
        :: send_error_log o2
        ++ WsSend (TextFrame agent_speaking_end_msg) o2
        :: during
        ++ send_error_log o1
        ++ WsSend (TextFrame agent_speaking_start_msg) o1
        :: Log INFO StartingPlayback :: trace st /\
    forallb is_binary_send_or_log during = true /\
    session st' = session st /\
    bridge st' = bridge st.
Proof.
  intros o1. unfold _forward_agent_audio.
  unfold bind at 1. unfold logger at 1, emit at 1.
  set (st1 := with_event (Log INFO StartingPlayback) st).
  unfold bind at 1.
  destruct (send_message_effect agent_speaking_start_msg st1)
    as (st2 & Hrun2 & Ht2 & Hs2 & Hb2 & _).
  rewrite Hrun2. unfold try_finally.
  destruct (forward_frames_events (frames track) (stream_raises track) st2)
    as (during & Ht3 & Hd & Hs3 & Hb3).
  unfold try_except at 1, bind at 1, except_Exception.
  destruct (forward_frames (frames track) (stream_raises track) st2)
    as [[closed | x] st3]; cbn [snd] in Ht3, Hs3, Hb3.
  - unfold ret at 1. unfold bind at 1.
    destruct (send_message_effect agent_speaking_end_msg st3)
      as (st4 & Hrun4 & Ht4 & Hs4 & Hb4 & _).
    rewrite Hrun4. unfold logger, emit.
    exists during, (next_send_outcome (send_results (env st3))).
    eexists. split; [reflexivity |].
    cbn [with_event trace session bridge].
    rewrite Ht4, Ht3, Ht2, Hs4, Hs3, Hs2, Hb4, Hb3, Hb2.
    subst st1. cbn [with_event trace session bridge env].
    rewrite <- ?app_assoc. auto.
  - unfold logger at 1, emit at 1. unfold bind at 1.
    destruct (send_message_effect agent_speaking_end_msg
                (with_event (Log ERROR ErrorForwardingAudio) st3))
      as (st4 & Hrun4 & Ht4 & Hs4 & Hb4 & _).
    rewrite Hrun4. unfold logger, emit.
    exists (Log ERROR ErrorForwardingAudio :: during),
      (next_send_outcome (send_results (env st3))).
    eexists. split; [reflexivity |].
    cbn [with_event trace session bridge].
    rewrite Ht4, Hs4, Hb4. cbn [with_event trace session bridge env].
    rewrite Ht3, Ht2, Hs3, Hs2, Hb3, Hb2.
    subst st1. cbn [with_event trace session bridge env forallb
                    is_binary_send_or_log].
    rewrite <- ?app_assoc. auto.
Qed.

(** X12: a playback task only talks to the device: whatever the track
    and the websocket do, it makes no call on the room or the audio
    source, and it leaves the session and the registry as they are; a
    failure while forwarding ends the task, not the session. *)
Theorem playback_leaves_session_alone (track : Track) (st : Sys) :
  let st' := (_forward_agent_audio track st).2 in
  session st' = session st /\
  bridge st' = bridge st /\
  count_events is_room_call (trace st') = count_events is_room_call (trace st) /\
  lifecycle (session st') = lifecycle (session st).
Proof.
  intros st'. subst st'.
  destruct (playback_run track st) as (during & o2 & st' & -> & Ht & Hd & Hs & Hb).
  cbn [snd]. rewrite Hs, Hb, Ht. repeat split.
  cbn [count_events is_room_call].
  rewrite count_send_error_log by reflexivity.
  cbn [count_events is_room_call]. rewrite count_events_app.
  rewrite (count_in_playback_events is_room_call during); [| | exact Hd].
  - rewrite count_send_error_log by reflexivity. reflexivity.
  - intros [] H; try discriminate; reflexivity.
Qed.

(** X13: the first thing a playback task hands to the websocket is
    [agent_speaking_start], before any frame and even when the track
    yields no frame at all; it is sent once, and everything between it and
    [agent_speaking_end] is a binary frame or a log line. *)
Theorem agent_speaking_start_comes_first (track : Track) (st : Sys) :
  let o1 := next_send_outcome (send_results (env st)) in
  exists o2 during,
    sends (trace (_forward_agent_audio track st).2)
    = WsSend (TextFrame (JObj [("type", JStr "agent_speaking_end")])) o2
        :: sends during
        ++ WsSend (TextFrame (JObj [("type", JStr "agent_speaking_start")])) o1
        :: sends (trace st) /\
    forallb is_binary_send_or_log during = true /\
    count_events (is_send_of_type "agent_speaking_start") during = 0%nat.
Proof.
  intros o1.
  destruct (playback_run track st) as (during & o2 & st' & -> & Ht & Hd & _).
  exists o2, during. cbn [snd]. rewrite Ht. split; [| split; [exact Hd |]].
  - unfold sends at 1. cbn [List.filter is_send].
    fold (sends (send_error_log o2
                   ++ WsSend (TextFrame agent_speaking_end_msg) o2
                   :: during ++ send_error_log o1
                   ++ WsSend (TextFrame agent_speaking_start_msg) o1
                   :: Log INFO StartingPlayback :: trace st)).
    rewrite sends_send_error_log. unfold sends at 1.
    cbn [List.filter is_send].
    fold (sends (during ++ send_error_log o1
                   ++ WsSend (TextFrame agent_speaking_start_msg) o1
                   :: Log INFO StartingPlayback :: trace st)).
    rewrite sends_app, sends_send_error_log. reflexivity.
  - apply count_in_playback_events; [| exact Hd].
    intros [] H; try discriminate; [reflexivity |].
    destruct p; [discriminate | reflexivity].
Qed.

Lemma forward_step_sent (frame : AudioFrame) (p : list byte)
    (rest : list AudioFrame) (r : bool) (st : Sys) :
  playback_payload frame = Some p ->
  next_send_outcome (send_results (env st)) = Sent ->
  exists st1,
    forward_frames (frame :: rest) r st = forward_frames rest r st1 /\
    trace st1 = WsSend (BinaryFrame p) Sent :: trace st /\
    send_results (env st1) = tl (send_results (env st)).
Proof.
  intros Hp Ho. cbn [forward_frames]. unfold bind at 1. rewrite Hp.
  unfold_ops. destruct st as [s b [cs ps ks ss] tr h]. cbn in Ho.
  destruct ss as [| o ss]; cbn in *; [| subst o; cbn]; eexists; repeat split.
Qed.

Lemma forward_step_failed (frame : AudioFrame) (p : list byte)
    (rest : list AudioFrame) (r : bool) (o : SendOutcome)
    (more : list SendOutcome) (st : Sys) :
  playback_payload frame = Some p ->
  o <> Sent ->
  send_results (env st) = o :: more ->
  exists st1,
    forward_frames (frame :: rest) r st
    = (match o with
       | SendClosed => Ok true
       | _ => Raise SocketError
       end, st1) /\
    binary_payloads (trace st1) = p :: binary_payloads (trace st) /\
    send_results (env st1) = more.
Proof.
  intros Hp Ho Hs. cbn [forward_frames]. unfold bind at 1. rewrite Hp.
  unfold_ops. destruct st as [s b [cs ps ks ss] tr h]. cbn in Hs. subst ss.
  destruct o; [contradiction | |]; cbn; eexists; repeat split.
Qed.

Lemma all_sent_next (answers : list SendOutcome) :
  Forall (eq Sent) answers ->
  next_send_outcome answers = Sent /\ Forall (eq Sent) (tl answers).
Proof.
  intros H. destruct H as [| o l Ho Hl]; cbn; auto.
Qed.

Lemma forward_frames_all_sent (fs : list AudioFrame)
    (payloads : list (list byte)) (r : bool) (st : Sys) :
  Forall2 (fun f p => playback_payload f = Some p) fs payloads ->
  Forall (eq Sent) (send_results (env st)) ->
  binary_payloads (trace (forward_frames fs r st).2)
  = rev payloads ++ binary_payloads (trace st).
Proof.
  intros Hfs. revert st.
  induction Hfs as [| f p fs payloads Hp Hfs IH]; intros st Hall.
  - cbn [forward_frames]. destruct r; reflexivity.
  - destruct (all_sent_next _ Hall) as [Ho Htl].
    destruct (forward_step_sent f p fs r st Hp Ho) as (st1 & -> & Ht & He).
    rewrite <- He in Htl. rewrite (IH st1 Htl), Ht.
    cbn [rev binary_payloads]. rewrite <- app_assoc. reflexivity.
Qed.

Lemma forward_frames_stops (before after : list AudioFrame)
    (bad : AudioFrame) (payloads : list (list byte)) (p : list byte)
    (o : SendOutcome) (more : list SendOutcome) (r : bool) (st : Sys) :
  Forall2 (fun f q => playback_payload f = Some q) before payloads ->
  playback_payload bad = Some p ->
  o <> Sent ->
  send_results (env st) = replicate (length before) Sent ++ o :: more ->
  exists st1,
    forward_frames (before ++ bad :: after) r st
    = (match o with
       | SendClosed => Ok true
       | _ => Raise SocketError
       end, st1) /\
    binary_payloads (trace st1)
    = p :: rev payloads ++ binary_payloads (trace st) /\
    send_results (env st1) = more.
Proof.
  intros Hfs Hp Ho. revert st.
  induction Hfs as [| f q fs payloads Hq Hfs IH]; intros st Hs.
  - cbn [app length replicate] in *.
    apply (forward_step_failed bad p after r o more st Hp Ho Hs).
  - cbn [app length replicate] in *.
    assert (Hn : next_send_outcome (send_results (env st)) = Sent)
      by (rewrite Hs; reflexivity).
    destruct (forward_step_sent f q (fs ++ bad :: after) r st Hq Hn)
      as (st1 & -> & Ht & He).
    rewrite Hs in He. cbn [tl] in He.
    destruct (IH st1 He) as (st2 & Hrun & Hb & Hm).
    exists st2. split; [exact Hrun |]. split; [| exact Hm].
    rewrite Hb, Ht. cbn [rev binary_payloads]. rewrite <- app_assoc.
    reflexivity.
Qed.

Lemma binary_payloads_text (o : SendOutcome) (msg : json) (tr : list Event) :
  binary_payloads (send_error_log o ++ WsSend (TextFrame msg) o :: tr)
  = binary_payloads tr.
Proof. destruct o; reflexivity. Qed.

Lemma playback_binary_payloads (track : Track) (st : Sys) :
  exists st2 st',
    send_message agent_speaking_start_msg
      (with_event (Log INFO StartingPlayback) st) = (Ok tt, st2) /\
    binary_payloads (trace st2) = binary_payloads (trace st) /\
    send_results (env st2) = tl (send_results (env st)) /\
    _forward_agent_audio track st = (Ok tt, st') /\
    binary_payloads (trace st')
    = binary_payloads
        (trace (forward_frames (frames track) (stream_raises track) st2).2) /\
    send_results (env st')
    = tl (send_results
            (env (forward_frames (frames track) (stream_raises track) st2).2)).
Proof.
  destruct (send_message_effect agent_speaking_start_msg
              (with_event (Log INFO StartingPlayback) st))
    as (st2 & Hrun2 & Ht2 & _ & _ & _ & _ & _ & _ & He2).
  exists st2.
  assert (Hb2 : binary_payloads (trace st2) = binary_payloads (trace st)).
  { rewrite Ht2, binary_payloads_text. reflexivity. }
  unfold _forward_agent_audio.
  unfold bind at 1. unfold logger at 1, emit at 1.
  unfold bind at 1. rewrite Hrun2.
  unfold try_finally, try_except, bind at 1, except_Exception.
  destruct (forward_frames (frames track) (stream_raises track) st2)
    as [[closed | x] st3]; cbn [snd].
  - unfold ret at 1. unfold bind.
    destruct (send_message_effect agent_speaking_end_msg st3)
      as (st4 & Hrun4 & Ht4 & _ & _ & _ & _ & _ & _ & He4).
    rewrite Hrun4. unfold logger, emit. eexists.
    split; [reflexivity |]. split; [exact Hb2 |]. split; [exact He2 |].
    split; [reflexivity |]. cbn [with_event trace env].
    rewrite Ht4, He4. split; [| reflexivity].
    cbn [binary_payloads]. rewrite binary_payloads_text. reflexivity.
  - unfold logger at 1, emit at 1. unfold bind.
    destruct (send_message_effect agent_speaking_end_msg
                (with_event (Log ERROR ErrorForwardingAudio) st3))
      as (st4 & Hrun4 & Ht4 & _ & _ & _ & _ & _ & _ & He4).
    rewrite Hrun4. unfold logger, emit. eexists.
    split; [reflexivity |]. split; [exact Hb2 |]. split; [exact He2 |].
    split; [reflexivity |]. cbn [with_event trace env].
    rewrite Ht4, He4. split; [| reflexivity].
    cbn [binary_payloads]. rewrite binary_payloads_text. reflexivity.
Qed.

(** X14: when every remote frame can be decoded and the websocket takes
    every send, the binary frames handed to the device are the payloads of
    the track's frames, each once and in the order the track yields
    them. *)
Theorem playback_keeps_order (track : Track) (payloads : list (list byte))
    (st : Sys) :
  Forall2 (fun f p => playback_payload f = Some p) (frames track) payloads ->
  Forall (eq Sent) (send_results (env st)) ->
  binary_payloads (trace (_forward_agent_audio track st).2)
  = rev payloads ++ binary_payloads (trace st).
Proof.
  intros Hfs Hall.
  destruct (playback_binary_payloads track st)
    as (st2 & st' & _ & Hb2 & He2 & -> & Hb & _).
  cbn [snd]. rewrite Hb.
  destruct (all_sent_next _ Hall) as [_ Htl]. rewrite <- He2 in Htl.
  rewrite (forward_frames_all_sent _ _ _ _ Hfs Htl), Hb2. reflexivity.
Qed.

Lemma playback_keeps_order_witness :
  binary_payloads
    (trace (_forward_agent_audio
              (mkTrack [mkAudioFrame [x01; x02] 48000 1 1;
                        mkAudioFrame [x03; x04; x05; x06] 48000 2 1] false)
              idle_example).2)
  = [[x03; x04]; [x01; x02]].
Proof.
  apply (playback_keeps_order
           (mkTrack [mkAudioFrame [x01; x02] 48000 1 1;
                     mkAudioFrame [x03; x04; x05; x06] 48000 2 1] false)
           [[x01; x02]; [x03; x04]] idle_example).
  - repeat constructor.
  - constructor.
Defined.

(** X15: when a send of a frame fails, the task stops forwarding there:
    the frames before it and the failing one are the only binary frames
    handed to the websocket, the frames after it never are, and the one
    later call on the websocket is the [agent_speaking_end] send.  This
    holds for a closed socket ([break]) and for any other send error
    alike. *)
Theorem playback_stops_at_send_failure
    (before after : list AudioFrame) (bad : AudioFrame)
    (payloads : list (list byte)) (p : list byte)
    (o1 o : SendOutcome) (more : list SendOutcome) (r : bool) (st : Sys) :
  Forall2 (fun f q => playback_payload f = Some q) before payloads ->
  playback_payload bad = Some p ->
  o <> Sent ->
  send_results (env st) = o1 :: replicate (length before) Sent ++ o :: more ->
  let st' := (_forward_agent_audio (mkTrack (before ++ bad :: after) r) st).2 in
  binary_payloads (trace st') = p :: rev payloads ++ binary_payloads (trace st) /\
  send_results (env st') = tl more.
Proof.
  intros Hfs Hp Ho Hs st'. subst st'.
  destruct (playback_binary_payloads (mkTrack (before ++ bad :: after) r) st)
    as (st2 & st' & _ & Hb2 & He2 & -> & Hb & He).
  cbn [snd frames stream_raises] in *. rewrite Hs in He2. cbn [tl] in He2.
  destruct (forward_frames_stops before after bad payloads p o more r st2
              Hfs Hp Ho He2) as (st3 & Hrun & Hb3 & He3).
  rewrite Hrun in Hb, He. cbn [snd] in Hb, He.
  rewrite Hb, He, Hb3, He3, Hb2. split; reflexivity.
Qed.

Lemma playback_stops_at_send_failure_witness :
  let st' := (_forward_agent_audio
                (mkTrack [mkAudioFrame [x01; x02] 48000 1 1;
                          mkAudioFrame [x03; x04] 48000 1 1;
                          mkAudioFrame [x05; x06] 48000 1 1] false)
                (with_env (mkEnv [] [] [] [Sent; Sent; SendClosed; SendClosed])
                   idle_example)).2 in
  binary_payloads (trace st') = [[x03; x04]; [x01; x02]] /\
  send_results (env st') = [].
Proof.
  apply (playback_stops_at_send_failure
           [mkAudioFrame [x01; x02] 48000 1 1]
           [mkAudioFrame [x05; x06] 48000 1 1]
           (mkAudioFrame [x03; x04] 48000 1 1)
           [[x01; x02]] [x03; x04] Sent SendClosed [SendClosed] false
           (with_env (mkEnv [] [] [] [Sent; Sent; SendClosed; SendClosed])
              idle_example)).
  - repeat constructor.
  - reflexivity.
  - discriminate.
  - reflexivity.
Defined.

(** ** A whole connection *)

Lemma other_message_no_session (message : Message) :
  is_start_message message = false ->
  preserves no_session_yet (_handle_message message).
Proof.
  intros Hm st (Hc & Hr & Hs & He).
  destruct Hc as (Ha & Hid & Hroom & Hsrc).
  destruct message as [audio | [v |]].
  - cbn [_handle_message]. unfold process_audio_chunk. unfold_ops.
    rewrite Ha. cbn. repeat split; assumption.
  - destruct v; try (cbn; repeat split; assumption).
    cbn [_handle_message is_start_message] in *.
    unfold msg_get, end_session. unfold_ops.
    destruct (str_eq (dict_get "type" items) "device_info") eqn:E1; cbn in *.
    + destruct st as [s b [cs ps ks ss] tr h]. cbn in *.
      destruct ss as [| [] ss]; cbn; repeat split; assumption.
    + rewrite Hm.
      destruct (str_eq (dict_get "type" items) "end_session"); cbn.
      * rewrite Ha. cbn. repeat split; assumption.
      * repeat split; assumption.
  - cbn. repeat split; assumption.
Qed.

(** X16: on a connection where the device never sends [start_session],
    whatever else it sends (frames, [device_info], [end_session], unknown
    or malformed text), no call is made on a room or an audio source,
    neither [session_started] nor [session_ended] is handed to the
    websocket, and the session ends as it was created. *)
Theorem no_start_no_room (b : UMIBridge) (ws : Z) (messages : list Message)
    (ending : LoopEnd) (e : Env) (h : Handle) :
  Forall (fun m => is_start_message m = false) messages ->
  let st' := (handle_device b ws messages ending e h).2 in
  count_events is_room_call (trace st') = 0%nat /\
  count_events (is_send_of_type "session_started") (trace st') = 0%nat /\
  count_events (is_send_of_type "session_ended") (trace st') = 0%nat /\
  session st' = DeviceSession_init ws /\
  next_handle st' = h.
Proof.
  intros Hms st'. subst st'.
  rewrite handle_device_unfold, cleanup_run. cbn [snd].
  assert (Hexit : no_session_yet (loop_exit b ws messages ending e h)
                  /\ session (loop_exit b ws messages ending e h)
                     = DeviceSession_init ws
                  /\ next_handle (loop_exit b ws messages ending e h) = h).
  { unfold loop_exit, guarded_loop.
    set (I := fun st => no_session_yet st
                        /\ session st = DeviceSession_init ws
                        /\ next_handle st = h).
    assert (Hmsg : forall m, is_start_message m = false ->
                             preserves I (_handle_message m)).
    { intros m Hm st (Hn & Hs & Hh). split.
      - apply other_message_no_session; assumption.
      - destruct Hn as ((Ha & _) & _).
        destruct m as [audio | [v |]].
        + cbn [_handle_message]. unfold process_audio_chunk. unfold_ops.
          rewrite Ha. cbn. auto.
        + destruct v; try (cbn; auto).
          cbn [_handle_message is_start_message] in *.
          unfold msg_get, end_session. unfold_ops.
          destruct (str_eq (dict_get "type" items) "device_info") eqn:E1;
            cbn in *.
          * destruct st as [s b0 [cs ps ks ss] tr h0]. cbn in *.
            destruct ss as [| [] ss]; cbn; auto.
          * rewrite Hm.
            destruct (str_eq (dict_get "type" items) "end_session"); cbn;
              [rewrite Ha; cbn |]; auto.
        + cbn. auto. }
    assert (Hloop : preserves I (receive_loop messages ending)).
    { clear -Hms Hmsg. induction Hms as [| m rest Hm Hrest IH];
        cbn [receive_loop].
      - destruct ending; [apply preserves_ret | apply preserves_raise ..].
      - apply preserves_bind; [apply Hmsg, Hm |]. intros _. exact IH. }
    apply (preserves_try_except I); [exact Hloop | |].
    - intros x handler Hx st (Hn & Hs & Hh).
      destruct x; injection Hx as <-; unfold_ops; cbn;
        (split; [| auto]);
        destruct Hn as (Hc & Hr & H1 & H2); repeat split; cbn; auto;
        apply Hc.
    - unfold I, loop_entry, no_session_yet, cleared. cbn. repeat split. }
  destruct Hexit as (((Ha & Hc) & Hr & H1 & H2) & Hs & Hh).
  rewrite Ha. cbn [with_event with_devices trace session next_handle
                   count_events is_room_call is_send_of_type].
  rewrite Hr, H1, H2, Hs, Hh. repeat split.
Qed.

Lemma no_start_no_room_witness :
  count_events is_room_call
    (trace (handle_device (mkUMIBridge ∅) 7
              [Binary [x01; x02];
               Text (Some (JObj [("type", JStr "end_session")]));
               Text None]
              ClosedError quiet_env 0%nat).2) = 0%nat.
Proof.
  apply (no_start_no_room (mkUMIBridge ∅) 7
           [Binary [x01; x02];
            Text (Some (JObj [("type", JStr "end_session")]));
            Text None]
           ClosedError quiet_env 0%nat).
  repeat constructor.
Defined.

Lemma start_session_idle_is_cleared sid url tok :
  preserves idle_is_cleared (start_session sid url tok).
Proof.
  intros st _ Hidle.
  pose proof (start_session_fields sid url tok st) as (_ & Ha & _).
  cbn zeta in Ha. congruence.
Qed.

Lemma end_session_idle_is_cleared : preserves idle_is_cleared end_session.
Proof.
  intros st H _. destruct (is_active (session st)) eqn:Ha.
  - destruct (end_session_effect st Ha) as (st' & -> & Hs & _).
    cbn [snd]. rewrite Hs. repeat split.
  - rewrite (end_session_idle st Ha). apply H, Ha.
Qed.

Lemma chunk_only_counter (audio : list byte) (st : Sys) :
  exists n,
    session (process_audio_chunk audio st).2
    = set_audio_frames_sent n (session st).
Proof.
  unfold process_audio_chunk. unfold_ops.
  destruct st as [s b [cs ps ks ss] tr h]. cbn.
  exists (audio_frames_sent
            (session (process_audio_chunk audio (mkSys s b (mkEnv cs ps ks ss) tr h)).2)).
  unfold process_audio_chunk. unfold_ops. cbn.
  destruct s as [d sid r src a n]. cbn.
  destruct a; cbn; [| reflexivity].
  destruct src as [src |]; cbn; [| reflexivity].
  destruct (frombuffer_int16 audio) as [pcm |]; cbn; [| reflexivity].
  destruct ks as [| [] ks]; cbn; try destruct (_ =? 0); reflexivity.
Qed.

Lemma process_audio_chunk_idle_is_cleared audio :
  preserves idle_is_cleared (process_audio_chunk audio).
Proof.
  intros st H. destruct (chunk_only_counter audio st) as (n & Hs).
  unfold idle_is_cleared, cleared in *. rewrite Hs. exact H.
Qed.

Lemma send_message_idle_is_cleared msg :
  preserves idle_is_cleared (send_message msg).
Proof.
  intros st H. destruct (send_message_effect msg st) as (st' & -> & _ & Hs & _).
  cbn [snd]. unfold idle_is_cleared. rewrite Hs. exact H.
Qed.

Lemma logger_idle_is_cleared lvl m : preserves idle_is_cleared (logger lvl m).
Proof. intros st H. exact H. Qed.

(** X17: however a connection goes and however it ends, when
    [handle_device] returns the session holds nothing of a session:
    it is idle, [session_id] is [None], and it refers to no room and no
    audio source. *)
Theorem connection_leaves_nothing_behind (b : UMIBridge) (ws : Z)
    (messages : list Message) (ending : LoopEnd) (e : Env) (h : Handle) :
  let st' := (handle_device b ws messages ending e h).2 in
  is_active (session st') = false /\
  session_id (session st') = JNull /\
  room (session st') = None /\
  audio_source (session st') = None /\
  device_id (session st') = ws.
Proof.
  intros st'. subst st'.
  rewrite handle_device_unfold, cleanup_run. cbn [snd].
  set (I := fun st => idle_is_cleared st /\ device_id (session st) = ws).
  assert (Hexit : I (loop_exit b ws messages ending e h)).
  { unfold loop_exit. apply (guarded_loop_preserves I).
    - intros sid url tok st [H Hd]. split.
      + apply start_session_idle_is_cleared, H.
      + unfold start_session. unfold_ops.
        destruct st as [s b0 [cs ps ks ss] tr h0]. cbn in *.
        destruct cs as [| [] cs]; cbn; auto;
          destruct ps as [| [] ps]; cbn; auto;
          destruct ss as [| [] ss]; cbn; auto.
    - intros st [H Hd]. split; [apply end_session_idle_is_cleared, H |].
      destruct (is_active (session st)) eqn:Ha.
      + destruct (end_session_effect st Ha) as (st' & -> & Hs & _).
        cbn [snd]. rewrite Hs. exact Hd.
      + rewrite (end_session_idle st Ha). exact Hd.
    - intros audio st [H Hd].
      split; [apply process_audio_chunk_idle_is_cleared, H |].
      destruct (chunk_only_counter audio st) as (n & ->). exact Hd.
    - intros st [H Hd]. split; [apply send_message_idle_is_cleared, H |].
      destruct (send_message_effect ready_msg st) as (st' & -> & _ & Hs & _).
      cbn [snd]. rewrite Hs. exact Hd.
    - intros lvl m _ st H. exact H.
    - split; [| reflexivity]. unfold idle_is_cleared, cleared. cbn. auto. }
  destruct Hexit as [Hc Hd].
  cbn [with_event with_devices session].
  destruct (is_active (session (loop_exit b ws messages ending e h))) eqn:Ha.
  - destruct (end_session_effect _ Ha) as (st' & -> & Hs & _).
    cbn [snd]. rewrite Hs. cbn. auto.
  - destruct (Hc Ha) as (H1 & H2 & H3 & H4). auto.
Qed.

(** ** One session, end to end *)

Lemma guarded_loop_nil (ws : Z) (ending : LoopEnd) (st : Sys) :
  guarded_loop ws [] ending st = (Ok tt, after_loop ws ending st).
Proof. destruct ending; reflexivity. Qed.

Lemma guarded_loop_cons_ok (ws : Z) (message : Message) (rest : list Message)
    (ending : LoopEnd) (st st1 : Sys) :
  _handle_message message st = (Ok tt, st1) ->
  guarded_loop ws (message :: rest) ending st = guarded_loop ws rest ending st1.
Proof.
  intros H. unfold guarded_loop, try_except. cbn [receive_loop]. unfold bind.
  rewrite H. reflexivity.
Qed.

Lemma handle_start_ok (items : list (string * json)) (st : Sys) :
  dict_get "type" items = JStr "start_session" ->
  next_answer (connect_results (env st)) = true ->
  next_answer (publish_results (env st)) = true ->
  let sid := dict_get "session_id" items in
  let o := next_send_outcome (send_results (env st)) in
  exists st',
    _handle_message (Text (Some (JObj items))) st = (Ok tt, st') /\
    session st' = {| device_id := device_id (session st); session_id := sid;
                     room := Some (next_handle st);
                     audio_source := Some (S (next_handle st));
                     is_active := true; audio_frames_sent := 0 |} /\
    sends (trace st')
    = WsSend (TextFrame (session_started_msg sid)) o :: sends (trace st) /\
    captured (trace st') = captured (trace st) /\
    count_events is_disconnect (trace st')
    = count_events is_disconnect (trace st) /\
    capture_results (env st') = capture_results (env st).
Proof.
  intros Hty Hc Hp sid o. cbn [_handle_message].
  unfold msg_get, start_session. unfold_ops. rewrite Hty.
  destruct st as [s b [cs ps ks ss] tr h]. cbn in Hc, Hp. subst sid o.
  destruct cs as [| [] cs]; try discriminate;
    destruct ps as [| [] ps]; try discriminate;
    destruct ss as [| [] ss]; cbn; eexists; repeat split.
Qed.

Lemma handle_end (st : Sys) : _handle_message end_msg st = end_session st.
Proof.
  destruct (end_session_returns st) as (st' & Hrun & _).
  unfold end_msg. cbn [_handle_message]. unfold msg_get.
  unfold try_except, bind, ret. cbn [dict_get String.eqb Ascii.eqb Bool.eqb
                                      str_eq].
  rewrite Hrun. reflexivity.
Qed.

Lemma chunk_keeps_sends (audio : list byte) (st : Sys) :
  sends (trace (process_audio_chunk audio st).2) = sends (trace st) /\
  send_results (env (process_audio_chunk audio st).2) = send_results (env st) /\
  count_events is_disconnect (trace (process_audio_chunk audio st).2)
  = count_events is_disconnect (trace st) /\
  bridge (process_audio_chunk audio st).2 = bridge st.
Proof.
  unfold process_audio_chunk. unfold_ops.
  destruct st as [s b [cs ps ks ss] tr h]. cbn.
  destruct (is_active s); cbn; auto.
  destruct (audio_source s) as [src |]; cbn; auto.
  destruct (frombuffer_int16 audio) as [pcm |]; cbn; auto.
  destruct ks as [| [] ks]; cbn; try destruct (_ =? 0); cbn; auto.
Qed.

Lemma ingest_run (audios : list (list byte)) (ending : LoopEnd) (ws : Z)
    (src : Handle) (st : Sys) :
  is_active (session st) = true ->
  audio_source (session st) = Some src ->
  Forall (eq true) (capture_results (env st)) ->
  let taken := List.filter whole_samples audios in
  exists st',
    (forall rest,
        guarded_loop ws (map Binary audios ++ rest) ending st
        = guarded_loop ws rest ending st') /\
    session st'
    = set_audio_frames_sent
        (audio_frames_sent (session st) + Z.of_nat (length taken)) (session st) /\
    captured (trace st') = rev (map ingest_frame taken) ++ captured (trace st) /\
    sends (trace st') = sends (trace st) /\
    send_results (env st') = send_results (env st) /\
    count_events is_disconnect (trace st')
    = count_events is_disconnect (trace st).
Proof.
  revert st. induction audios as [| audio audios IH]; intros st Ha Hsrc Hall.
  - exists st. cbn. split; [reflexivity |].
    split; [| auto]. rewrite Z.add_0_r. destruct (session st). reflexivity.
  - cbn zeta. cbn [List.filter].
    destruct (chunk_keeps_sends audio st) as (Hsd & Hse & Hdc & _).
    destruct (whole_samples audio) eqn:Hw.
    + destruct (all_true_next _ Hall) as [Hnext Htl].
      destruct (chunk_forwarded audio src st Ha Hsrc Hw Hnext)
        as (st1 & Hrun & Hs & Ht & _ & Hc).
      rewrite Hrun in Hsd, Hse, Hdc. cbn [snd] in Hsd, Hse, Hdc.
      assert (Ha1 : is_active (session st1) = true) by (rewrite Hs; exact Ha).
      assert (Hsrc1 : audio_source (session st1) = Some src)
        by (rewrite Hs; exact Hsrc).
      rewrite <- Hc in Htl.
      destruct (IH st1 Ha1 Hsrc1 Htl)
        as (st' & Hloop & Hs' & Hcap & Hsd' & Hse' & Hdc').
      exists st'. split.
      { intros rest. cbn [map app].
        rewrite (guarded_loop_cons_ok ws (Binary audio) _ ending st st1 Hrun). apply Hloop. }
      split.
      { rewrite Hs', Hs. unfold set_audio_frames_sent. cbn [device_id
          session_id room audio_source is_active audio_frames_sent length].
        f_equal. lia. }
      split.
      { rewrite Hcap, Ht. cbn [map rev]. rewrite <- app_assoc. f_equal.
        destruct (_ =? 0); reflexivity. }
      rewrite Hsd', Hse', Hdc', Hsd, Hse, Hdc. auto.
    + pose proof (chunk_malformed audio src st Ha Hsrc Hw) as Hrun.
      rewrite Hrun in Hsd, Hse, Hdc. cbn [snd] in Hsd, Hse, Hdc.
      destruct (IH (with_event (Log ERROR ErrorProcessingAudio) st) Ha Hsrc Hall)
        as (st' & Hloop & Hs' & Hcap & Hsd' & Hse' & Hdc').
      exists st'. split.
      { intros rest. cbn [map app].
        rewrite (guarded_loop_cons_ok ws (Binary audio) _ ending st _ Hrun). apply Hloop. }
      split; [exact Hs' |]. split; [exact Hcap |].
      rewrite Hsd', Hse', Hdc'. auto.
Qed.

Lemma end_session_observed (st : Sys) :
  is_active (session st) = true ->
  let s := session st in
  let o := next_send_outcome (send_results (env st)) in
  exists st',
    end_session st = (Ok tt, st') /\
    session st' = {| device_id := device_id s; session_id := JNull;
                     room := None; audio_source := None; is_active := false;
                     audio_frames_sent := audio_frames_sent s |} /\
    sends (trace st')
    = WsSend (TextFrame (session_ended_msg (session_id s)
                           (audio_frames_sent s))) o :: sends (trace st) /\
    captured (trace st') = captured (trace st) /\
    count_events is_disconnect (trace st')
    = (count_events is_disconnect (trace st)
       + match room s with
         | Some _ => 1
         | None => 0
         end)%nat.
Proof.
  intros Ha s o.
  destruct (end_session_effect st Ha) as (st' & Hrun & Hs & Ht & _).
  exists st'. split; [exact Hrun |]. split; [exact Hs |].
  rewrite Ht. fold s o. destruct o, (room s); cbn; repeat split; lia.
Qed.

Lemma after_loop_same (ws : Z) (ending : LoopEnd) (st : Sys) :
  session (after_loop ws ending st) = session st /\
  env (after_loop ws ending st) = env st /\
  sends (trace (after_loop ws ending st)) = sends (trace st) /\
  captured (trace (after_loop ws ending st)) = captured (trace st) /\
  count_events is_disconnect (trace (after_loop ws ending st))
  = count_events is_disconnect (trace st).
Proof. destruct ending; repeat split. Qed.

Lemma session_run_observed (sid : json) (audios : list (list byte))
    (says_end : bool) (b : UMIBridge) (ws : Z) (ending : LoopEnd)
    (e : Env) (h : Handle) :
  next_answer (connect_results e) = true ->
  next_answer (publish_results e) = true ->
  Forall (eq true) (capture_results e) ->
  let messages := start_msg sid :: map Binary audios ++ closing says_end in
  let st' := (handle_device b ws messages ending e h).2 in
  let taken := List.filter whole_samples audios in
  let n := Z.of_nat (length taken) in
  exists o1 o2,
    sends (trace st')
    = [WsSend (TextFrame (session_ended_msg sid n)) o2;
       WsSend (TextFrame (session_started_msg sid)) o1] /\
    captured (trace st') = rev (map ingest_frame taken) /\
    count_events is_disconnect (trace st') = 1%nat /\
    session st' = {| device_id := ws; session_id := JNull; room := None;
                     audio_source := None; is_active := false;
                     audio_frames_sent := n |}.
Proof.
  intros Hc Hp Hall messages st' taken n. subst st'.
  rewrite handle_device_unfold, cleanup_run. cbn [snd].
  unfold loop_exit, messages, start_msg.
  destruct (handle_start_ok
              [("type", JStr "start_session"); ("session_id", sid)]
              (loop_entry b ws e h) eq_refl Hc Hp)
    as (st1 & Hrun1 & Hs1 & Hsd1 & Hcap1 & Hdc1 & Hk1).
  cbn [dict_get String.eqb Ascii.eqb Bool.eqb] in Hs1, Hsd1.
  rewrite (guarded_loop_cons_ok ws _ _ ending _ st1 Hrun1).
  assert (Ha1 : is_active (session st1) = true) by (rewrite Hs1; reflexivity).
  assert (Hsrc1 : audio_source (session st1) = Some (S h))
    by (rewrite Hs1; reflexivity).
  assert (Hall1 : Forall (eq true) (capture_results (env st1)))
    by (rewrite Hk1; exact Hall).
  destruct (ingest_run audios ending ws (S h) st1 Ha1 Hsrc1 Hall1)
    as (st2 & Hloop & Hs2 & Hcap2 & Hsd2 & Hse2 & Hdc2).
  rewrite Hloop. fold taken in Hs2, Hcap2.
  rewrite Hs1 in Hs2. unfold set_audio_frames_sent in Hs2.
  cbn [device_id session_id room audio_source is_active audio_frames_sent]
    in Hs2.
  change (0 + Z.of_nat (length taken)) with n in Hs2.
  assert (Ha2 : is_active (session st2) = true) by (rewrite Hs2; reflexivity).
  exists (next_send_outcome (send_results (env (loop_entry b ws e h)))).
  destruct says_end; cbn [closing].
  - pose proof (handle_end st2) as Hend.
    destruct (end_session_observed st2 Ha2)
      as (st3 & Hrun3 & Hs3 & Hsd3 & Hcap3 & Hdc3).
    rewrite Hrun3 in Hend.
    rewrite (guarded_loop_cons_ok ws _ _ ending _ st3 Hend), guarded_loop_nil.
    cbn [snd].
    destruct (after_loop_same ws ending st3) as (Hs & _ & Hsd & Hcap & Hdc).
    rewrite Hs, Hs3. cbn [is_active].
    cbn [with_event with_devices trace session].
    exists (next_send_outcome (send_results (env st2))).
    change (sends (Log INFO (CleanedUp ws) :: trace (after_loop ws ending st3)))
      with (sends (trace (after_loop ws ending st3))).
    change (captured (Log INFO (CleanedUp ws) :: trace (after_loop ws ending st3)))
      with (captured (trace (after_loop ws ending st3))).
    change (count_events is_disconnect
              (Log INFO (CleanedUp ws) :: trace (after_loop ws ending st3)))
      with (count_events is_disconnect (trace (after_loop ws ending st3))).
    rewrite Hs, Hsd, Hcap, Hdc, Hs3, Hsd3, Hcap3, Hdc3, Hs2, Hsd2, Hcap2, Hdc2,
      Hsd1, Hcap1, Hdc1.
    cbn. rewrite app_nil_r. repeat split.
  - rewrite guarded_loop_nil. cbn [snd].
    destruct (after_loop_same ws ending st2) as (Hs & He & Hsd & Hcap & Hdc).
    assert (Ha : is_active (session (after_loop ws ending st2)) = true)
      by (rewrite Hs; exact Ha2).
    rewrite Ha.
    destruct (end_session_observed _ Ha)
      as (st3 & Hrun3 & Hs3 & Hsd3 & Hcap3 & Hdc3).
    rewrite Hrun3. cbn [snd with_event with_devices trace session].
    exists (next_send_outcome (send_results (env st2))).
    change (sends (Log INFO (CleanedUp ws) :: trace st3))
      with (sends (trace st3)).
    change (captured (Log INFO (CleanedUp ws) :: trace st3))
      with (captured (trace st3)).
    change (count_events is_disconnect (Log INFO (CleanedUp ws) :: trace st3))
      with (count_events is_disconnect (trace st3)).
    rewrite Hs3, Hsd3, Hcap3, Hdc3, He, Hs, Hsd, Hcap, Hdc, Hs2, Hsd2, Hcap2,
      Hdc2, Hsd1, Hcap1, Hdc1.
    cbn. rewrite app_nil_r. repeat split.
Qed.

Lemma session_notices_sends (tr : list Event) :
  session_notices tr = List.filter is_session_notice (sends tr).
Proof.
  unfold session_notices, sends.
  induction tr as [| e tr IH]; [reflexivity |].
  simpl List.filter. destruct (is_send e) eqn:S.
  - simpl List.filter. rewrite IH. reflexivity.
  - assert (is_session_notice e = false) as ->
      by (destruct e; try discriminate S; reflexivity).
    exact IH.
Qed.

Lemma merged_alone (l : list Event) : merged l [] l.
Proof. induction l; constructor; assumption. Qed.

Lemma playback_event_no_notice (e : Event) :
  is_playback_event e = true -> is_session_notice e = false.
Proof.
  destruct e as [| p o | | | |]; try discriminate; try reflexivity.
  destruct p as [m | bs]; [| reflexivity].
  unfold is_playback_event, is_session_notice, is_send_of_type.
  destruct m as [| | | | | items]; try discriminate.
  unfold str_eq. destruct (dict_get "type" items) as [| | | s | |];
    try discriminate.
  intros H. apply orb_true_iff in H as [H | H];
    apply String.eqb_eq in H; subst s; reflexivity.
Qed.

Lemma playback_events_no_notice (played : list Event) :
  forallb is_playback_event played = true -> session_notices played = [].
Proof.
  unfold session_notices.
  induction played as [| e played IH]; [reflexivity |].
  cbn [forallb List.filter]. intros H.
  apply andb_true_iff in H as [He Hp].
  rewrite (playback_event_no_notice e He). exact (IH Hp).
Qed.

Lemma merged_notices (l r m : list Event) :
  merged l r m -> session_notices r = [] ->
  session_notices m = session_notices l.
Proof.
  unfold session_notices.
  induction 1 as [| e l r m _ IH | e l r m _ IH]; intros Hr.
  - reflexivity.
  - cbn [List.filter]. rewrite (IH Hr). reflexivity.
  - cbn [List.filter] in Hr |- *.
    destruct (is_session_notice e); [discriminate |]. exact (IH Hr).
Qed.

(** What one playback task adds to the trace is made of playback events. *)
Lemma playback_adds_playback_events (track : Track) (st : Sys) :
  exists added,
    trace (_forward_agent_audio track st).2 = added ++ trace st /\
    forallb is_playback_event added = true.
Proof.
  destruct (playback_run track st) as (during & o2 & st' & -> & Ht & Hd & _).
  cbn [snd].
  exists (Log INFO AgentFinishedSpeaking
            :: send_error_log o2
            ++ WsSend (TextFrame agent_speaking_end_msg) o2
            :: during
            ++ send_error_log (next_send_outcome (send_results (env st)))
            ++ [WsSend (TextFrame agent_speaking_start_msg)
                  (next_send_outcome (send_results (env st)));
                Log INFO StartingPlayback]).
  split.
  - rewrite Ht. cbn [app]. rewrite <- ?app_assoc. cbn [app].
    rewrite <- ?app_assoc. reflexivity.
  - assert (forall o, forallb is_playback_event (send_error_log o) = true) as Hl
      by (intros []; reflexivity).
    assert (forallb is_playback_event during = true) as Hd'.
    { clear Ht. induction during as [| e during IH]; [reflexivity |].
      cbn [forallb] in Hd |- *. apply andb_true_iff in Hd as [He Hd].
      rewrite (IH Hd), andb_true_r.
      destruct e as [| [] | | | |]; try discriminate; reflexivity. }
    cbn [forallb]. rewrite !forallb_app. cbn [forallb].
    rewrite !forallb_app, !Hl, Hd'. reflexivity.
Qed.

(** X18: one session from start to end.  When the room connects, the
    track is published and the audio source takes every frame, a device
    that sends [start_session], then any binary frames, and then either
    [end_session] or nothing more before the connection ends, is sent these
    session notices by the connection handler: [session_started] with its
    id, once, and after it [session_ended] with its id, once, whose
    [frames_sent] is the number of frames of whole samples it sent.  The
    handler's trace holds no playback traffic; the playback tasks that the
    [track_subscribed] handler starts send on the same websocket, and
    however their log lines, binary frames, [agent_speaking_start] and
    [agent_speaking_end] messages are interleaved with the handler's sends,
    the session notices on the websocket are these two, in this order.  The
    device's frames reach the audio source in order, the room is
    disconnected once, and the session is left cleared.  Saying
    [end_session] and just disconnecting give the same result. *)
Theorem session_end_to_end (sid : json) (audios : list (list byte))
    (says_end : bool) (b : UMIBridge) (ws : Z) (ending : LoopEnd)
    (e : Env) (h : Handle) :
  next_answer (connect_results e) = true ->
  next_answer (publish_results e) = true ->
  Forall (eq true) (capture_results e) ->
  let messages := start_msg sid :: map Binary audios ++ closing says_end in
  let st' := (handle_device b ws messages ending e h).2 in
  let taken := List.filter whole_samples audios in
  let n := Z.of_nat (length taken) in
  exists o1 o2,
    let notices :=
      [WsSend (TextFrame (JObj [("type", JStr "session_ended");
                                ("session_id", sid);
                                ("frames_sent", JNum n)])) o2;
       WsSend (TextFrame (JObj [("type", JStr "session_started");
                                ("session_id", sid)])) o1] in
    session_notices (trace st') = notices /\
    (forall played traffic : list Event,
       forallb is_playback_event played = true ->
       merged (trace st') played traffic ->
       session_notices traffic = notices) /\
    captured (trace st') = rev (map ingest_frame taken) /\
    count_events is_disconnect (trace st') = 1%nat /\
    session st' = {| device_id := ws; session_id := JNull; room := None;
                     audio_source := None; is_active := false;
                     audio_frames_sent := n |}.
Proof.
  intros Hc Hp Hall messages st' taken n.
  destruct (session_run_observed sid audios says_end b ws ending e h Hc Hp Hall)
    as (o1 & o2 & Hsends & Hcap & Hdc & Hs).
  fold messages st' taken n in Hsends, Hcap, Hdc, Hs.
  exists o1, o2. intros notices.
  assert (session_notices (trace st') = notices) as Hn
    by (rewrite session_notices_sends, Hsends; reflexivity).
  split; [exact Hn |]. split; [| auto].
  intros played traffic Hplayed Hmerged.
  rewrite (merged_notices _ _ _ Hmerged (playback_events_no_notice _ Hplayed)).
  exact Hn.
Qed.

Lemma session_end_to_end_witness :
  let st' := (handle_device (mkUMIBridge ∅) 7
                (start_msg (JStr "abc")
                 :: map Binary [[x01; x02]; [x03]; [x04; x05]] ++ closing false)
                ClosedError quiet_env 0%nat).2 in
  exists o1 o2,
    let notices :=
      [WsSend (TextFrame (JObj [("type", JStr "session_ended");
                                ("session_id", JStr "abc");
                                ("frames_sent", JNum 2)])) o2;
       WsSend (TextFrame (JObj [("type", JStr "session_started");
                                ("session_id", JStr "abc")])) o1] in
    session_notices (trace st') = notices /\
    (forall played traffic : list Event,
       forallb is_playback_event played = true ->
       merged (trace st') played traffic ->
       session_notices traffic = notices) /\
    captured (trace st') = [ingest_frame [x04; x05]; ingest_frame [x01; x02]] /\
    count_events is_disconnect (trace st') = 1%nat /\
    session st' = {| device_id := 7; session_id := JNull; room := None;
                     audio_source := None; is_active := false;
                     audio_frames_sent := 2 |}.
Proof.
  apply (session_end_to_end (JStr "abc") [[x01; x02]; [x03]; [x04; x05]] false
           (mkUMIBridge ∅) 7 ClosedError quiet_env 0%nat);
    [reflexivity | reflexivity | constructor].
Defined.

(** ** The receive loop and the registry *)

(** X19: the receive loop handles the messages strictly in order: a run
    of messages followed by another is the first run handled, then the
    second from the state the first left; and when a message of the first
    run raises, the loop stops there with that exception and none of the
    later messages is handled. *)
Theorem receive_loop_in_order (before after : list Message)
    (ending : LoopEnd) (st : Sys) :
  receive_loop (before ++ after) ending st
  = match receive_loop before PeerClosed st with
    | (Ok _, st1) => receive_loop after ending st1
    | (Raise x, st1) => (Raise x, st1)
    end.
Proof.
  revert st. induction before as [| message before IH]; intros st;
    [reflexivity |].
  cbn [app receive_loop]. unfold bind.
  destruct (_handle_message message st) as [[[] | x] st1]; [apply IH |].
  reflexivity.
Qed.

(** X20: a connection leaves the registry as it found it.  While the
    receive loop runs, the websocket's id is registered with the session
    made for it; when [handle_device] returns, the registry is the one it
    started from without that id, which is the very same registry when the
    id was not in it before. *)
Theorem registry_restored (b : UMIBridge) (ws : Z) (messages : list Message)
    (ending : LoopEnd) (e : Env) (h : Handle) :
  let st' := (handle_device b ws messages ending e h).2 in
  devices (bridge (loop_exit b ws messages ending e h)) !! ws
  = Some (DeviceSession_init ws) /\
  devices (bridge st') = delete ws (devices b) /\
  (devices b !! ws = None -> devices (bridge st') = devices b).
Proof.
  intros st'. subst st'.
  destruct (loop_exit_before_cleanup b ws messages ending e h) as [Hd Hc].
  assert (Hk : before_cleanup (<[ws := DeviceSession_init ws]> (devices b))
                 (if is_active (session (loop_exit b ws messages ending e h))
                  then (end_session (loop_exit b ws messages ending e h)).2
                  else loop_exit b ws messages ending e h)).
  { destruct (is_active _);
      [apply end_session_before_cleanup |]; split; assumption. }
  destruct Hk as [Hd' _].
  rewrite handle_device_unfold, cleanup_run. cbn [snd].
  cbn [with_event with_devices bridge devices]. rewrite Hd, Hd'.
  split; [apply lookup_insert_eq |].
  split; [apply delete_insert_eq |].
  intros Hnone. apply delete_insert_id, Hnone.
Qed.

Lemma registry_restored_witness :
  devices (bridge (handle_device (mkUMIBridge ∅) 7
                     [start_msg (JStr "abc"); Binary [x01; x02]]
                     IOFault quiet_env 0%nat).2)
  = devices (mkUMIBridge ∅).
Proof.
  apply (registry_restored (mkUMIBridge ∅) 7
           [start_msg (JStr "abc"); Binary [x01; x02]] IOFault quiet_env 0%nat).
  reflexivity.
Defined.

(** ** Startup *)

Lemma prefix_append (a b : string) : String.prefix a (a +:+ b) = true.
Proof.
  induction a as [| c a IH]; simpl; [destruct b; reflexivity |].
  destruct (Ascii.ascii_dec c c); [exact IH | contradiction].
Qed.

Lemma prefix_split (a s : string) :
  String.prefix a s = true -> exists b, s = a +:+ b.
Proof.
  revert s. induction a as [| c a IH]; intros s H.
  - exists s. reflexivity.
  - destruct s as [| d s]; simpl in H; [discriminate |].
    destruct (Ascii.ascii_dec c d) as [-> |]; [| discriminate].
    destruct (IH s H) as [b ->]. exists b. reflexivity.
Qed.

Lemma contains_occurrence (sub s : string) :
  contains sub s = true <-> exists pre post, s = pre +:+ sub +:+ post.
Proof.
  split.
  - induction s as [| c s IH]; cbn [contains]; intros H;
      apply orb_true_iff in H as [H | H].
    + destruct (prefix_split _ _ H) as [b ->]. exists "", b. reflexivity.
    + discriminate.
    + destruct (prefix_split _ _ H) as [b Hb]. exists "", b. exact Hb.
    + destruct (IH H) as (pre & post & ->).
      exists (String c pre), post. reflexivity.
  - intros (pre & post & ->). induction pre as [| c pre IH].
    + change (contains sub (sub +:+ post) = true).
      assert (H : String.prefix sub (sub +:+ post) = true)
        by apply prefix_append.
      revert H. generalize (sub +:+ post). intros s H.
      destruct s; unfold contains; fold contains; rewrite H; reflexivity.
    + change (contains sub (String c (pre +:+ sub +:+ post)) = true).
      unfold contains; fold contains. rewrite IH. apply orb_true_r.
Qed.

(** X21: [main] reaches [bridge.start()] exactly when [LIVEKIT_URL] has
    no occurrence of ["your-project"] and [LIVEKIT_API_KEY] does not begin
    with ["APIxx"].  The URL is tested first, so a URL with the
    placeholder is refused whatever the key is; with the values the file
    ships with, [main] returns on the URL test. *)
Theorem main_refuses_placeholders (livekit_url livekit_api_key : string) :
  (main livekit_url livekit_api_key = BridgeStarted <->
   ~ (exists pre post, livekit_url = pre +:+ "your-project" +:+ post) /\
   ~ (exists rest, livekit_api_key = "APIxx" +:+ rest)) /\
  ((exists pre post, livekit_url = pre +:+ "your-project" +:+ post) ->
   main livekit_url livekit_api_key = RefusedUrl) /\
  main LIVEKIT_URL LIVEKIT_API_KEY = RefusedUrl.
Proof.
  split; [| split].
  - unfold main. split.
    + intros H.
      destruct (contains "your-project" livekit_url) eqn:Hu; [discriminate |].
      destruct (String.prefix "APIxx" livekit_api_key) eqn:Hk; [discriminate |].
      split.
      * intros Hex. apply contains_occurrence in Hex. congruence.
      * intros [rest ->]. rewrite prefix_append in Hk. discriminate.
    + intros [Hu Hk].
      destruct (contains "your-project" livekit_url) eqn:Eu.
      { exfalso. apply Hu, contains_occurrence, Eu. }
      destruct (String.prefix "APIxx" livekit_api_key) eqn:Ek; [| reflexivity].
      exfalso. apply Hk, prefix_split, Ek.
  - intros Hex. apply contains_occurrence in Hex. unfold main.
    rewrite Hex. reflexivity.
  - vm_compute. reflexivity.
Qed.

Lemma main_refuses_placeholders_witness :
  main "wss://your-project.livekit.cloud" "APIrealkey" = RefusedUrl.
Proof.
  apply (proj1 (proj2 (main_refuses_placeholders
                         "wss://your-project.livekit.cloud" "APIrealkey"))).
  exists "wss://", ".livekit.cloud". reflexivity.
Defined.

(** ** Progress lines *)

Lemma every_33rd (n : Z) :
  (n + 1) / 33 - n / 33 = if (n + 1) mod 33 =? 0 then 1 else 0.
Proof.
  pose proof (Z.div_mod n 33 ltac:(lia)) as H1.
  pose proof (Z.mod_pos_bound n 33 ltac:(lia)) as H2.
  pose proof (Z.div_mod (n + 1) 33 ltac:(lia)) as H3.
  pose proof (Z.mod_pos_bound (n + 1) 33 ltac:(lia)) as H4.
  destruct (Z.eqb_spec ((n + 1) mod 33) 0); lia.
Qed.

(** X22: the progress line is logged once for every 33rd frame of the
    session: over a run of binary frames received while [Active], with an
    audio source that takes every frame, the number of progress lines
    added is the number of multiples of 33 the counter passes. *)
Theorem progress_every_33_frames (audios : list (list byte))
    (ending : LoopEnd) (src : Handle) (st : Sys) :
  is_active (session st) = true ->
  audio_source (session st) = Some src ->
  Forall (eq true) (capture_results (env st)) ->
  let st' := (receive_loop (map Binary audios) ending st).2 in
  let n := audio_frames_sent (session st) in
  let n' := audio_frames_sent (session st') in
  Z.of_nat (count_events is_streaming_log (trace st'))
  - Z.of_nat (count_events is_streaming_log (trace st))
  = n' / 33 - n / 33.
Proof.
  revert st. induction audios as [| audio audios IH]; intros st Ha Hsrc Hall.
  - assert (H : (receive_loop [] ending st).2 = st)
      by (destruct ending; reflexivity).
    cbn [map] in *. cbn zeta. rewrite H. lia.
  - assert (Hstep : forall st1,
               process_audio_chunk audio st = (Ok tt, st1) ->
               receive_loop (map Binary (audio :: audios)) ending st
               = receive_loop (map Binary audios) ending st1).
    { intros st1 H. cbn [map receive_loop _handle_message]. unfold bind.
      rewrite H. reflexivity. }
    cbn zeta.
    destruct (whole_samples audio) eqn:Hw.
    + destruct (all_true_next _ Hall) as [Hnext Htl].
      destruct (chunk_forwarded audio src st Ha Hsrc Hw Hnext)
        as (st1 & Hrun & Hs & Ht & _ & Hc).
      rewrite (Hstep _ Hrun).
      assert (Ha1 : is_active (session st1) = true) by (rewrite Hs; exact Ha).
      assert (Hsrc1 : audio_source (session st1) = Some src)
        by (rewrite Hs; exact Hsrc).
      rewrite <- Hc in Htl.
      pose proof (IH st1 Ha1 Hsrc1 Htl) as Hrest. cbn zeta in Hrest.
      rewrite Hs, Ht in Hrest.
      cbn [set_audio_frames_sent audio_frames_sent] in Hrest.
      pose proof (every_33rd (audio_frames_sent (session st))) as H33.
      destruct (_ =? 0); cbn [app count_events is_streaming_log] in Hrest; lia.
    + rewrite (Hstep _ (chunk_malformed audio src st Ha Hsrc Hw)).
      pose proof (IH (with_event (Log ERROR ErrorProcessingAudio) st)
                    Ha Hsrc Hall) as Hrest.
      cbn zeta in Hrest. exact Hrest.
Qed.

Lemma progress_every_33_frames_witness :
  let st' := (receive_loop (map Binary (replicate 70 [x01; x02])) PeerClosed
                active_example).2 in
  Z.of_nat (count_events is_streaming_log (trace st'))
  - Z.of_nat (count_events is_streaming_log (trace active_example))
  = audio_frames_sent (session st') / 33
    - audio_frames_sent (session active_example) / 33.
Proof.
  apply (progress_every_33_frames (replicate 70 [x01; x02]) PeerClosed 1%nat
           active_example);
    [reflexivity | reflexivity | constructor].
Defined.

(** ** A second [start_session] *)

Ltac left_connected_cases :=
  unfold room_left_connected in *; cbn in *;
  repeat match goal with
         | H : _ /\ _ |- _ => destruct H
         end;
  repeat match goal with
         | |- _ /\ _ => split
         end;
  try lia; try assumption; try tauto;
  try (intros ? [= <-]; lia).

Lemma start_session_left_connected r u t sid url tok :
  preserves (room_left_connected r u t) (start_session sid url tok).
Proof.
  intros st H. unfold start_session. unfold_ops.
  destruct st as [s b [cs ps ks ss] tr h].
  destruct cs as [| [] cs]; cbn;
    destruct ps as [| [] ps]; cbn;
    destruct ss as [| [] ss]; left_connected_cases.
Qed.

Lemma end_session_left_connected r u t :
  preserves (room_left_connected r u t) end_session.
Proof.
  intros st H. unfold end_session. unfold_ops.
  destruct st as [s b [cs ps ks ss] tr h]. cbn.
  destruct (is_active s); cbn; [| exact H].
  destruct (room s) as [r0 |] eqn:R; cbn;
    destruct ss as [| [] ss]; left_connected_cases;
    try discriminate;
    match goal with
    | H : forall r', room s = Some r' -> _ |- _ =>
        specialize (H _ R);
        destruct (Nat.eqb_spec r r0); [lia | assumption]
    end.
Qed.

Lemma process_audio_chunk_left_connected r u t audio :
  preserves (room_left_connected r u t) (process_audio_chunk audio).
Proof.
  intros st H. unfold process_audio_chunk. unfold_ops.
  destruct st as [s b [cs ps ks ss] tr h]. cbn.
  destruct (is_active s); cbn; [| exact H].
  destruct (audio_source s) as [src |]; cbn; [| exact H].
  destruct (frombuffer_int16 audio) as [pcm |]; cbn; [| left_connected_cases].
  destruct ks as [| [] ks]; cbn; try destruct (_ =? 0); left_connected_cases.
Qed.

Lemma send_ready_left_connected r u t :
  preserves (room_left_connected r u t) (send_message ready_msg).
Proof.
  intros st H. unfold_ops. destruct st as [s b [cs ps ks ss] tr h].
  destruct ss as [| [] ss]; left_connected_cases.
Qed.

Lemma logger_left_connected r u t lvl m :
  preserves (room_left_connected r u t) (logger lvl m).
Proof. intros st H. unfold_ops. left_connected_cases. Qed.

Lemma cleanup_left_connected r u t ws :
  preserves (room_left_connected r u t) (cleanup ws).
Proof.
  unfold cleanup.
  apply preserves_bind; [apply preserves_get_self |]. intros self.
  apply preserves_bind.
  { destruct (is_active self);
      [apply end_session_left_connected | apply preserves_ret]. }
  intros _. apply preserves_bind; [intros st H; exact H |]. intros registry.
  apply preserves_bind.
  { destruct (registry !! ws); [intros st H; exact H | apply preserves_ret]. }
  intros _. apply logger_left_connected.
Qed.

Lemma restart_leaves_room (items : list (string * json)) (r : Handle)
    (u : string) (t : Token) (st : Sys) :
  dict_get "type" items = JStr "start_session" ->
  room (session st) = Some r ->
  (r < next_handle st)%nat ->
  In (RoomConnect r u t true) (trace st) ->
  count_events (is_disconnect_of r) (trace st) = 0%nat ->
  room_left_connected r u t (_handle_message (Text (Some (JObj items))) st).2.
Proof.
  intros Hty Hroom Hlt Hin Hcount. cbn [_handle_message].
  unfold msg_get, start_session. unfold_ops. rewrite Hty.
  destruct st as [s b [cs ps ks ss] tr h]. cbn in Hroom, Hlt, Hin, Hcount.
  destruct cs as [| [] cs]; cbn;
    destruct ps as [| [] ps]; cbn;
    destruct ss as [| [] ss]; left_connected_cases.
Qed.

(** X23: a second [start_session] leaves the first room connected.  When
    a device starts a session and, without ending it, sends
    [start_session] again, the room of the first session is never
    disconnected: not by the second start, not by anything the device
    sends afterwards, and not by the cleanup when the connection ends. *)
Theorem second_start_leaves_first_room_connected
    (a : json) (items : list (string * json)) (rest : list Message)
    (ending : LoopEnd) (b : UMIBridge) (ws : Z) (e : Env) (h : Handle) :
  next_answer (connect_results e) = true ->
  next_answer (publish_results e) = true ->
  dict_get "type" items = JStr "start_session" ->
  let messages := start_msg a :: Text (Some (JObj items)) :: rest in
  let st' := (handle_device b ws messages ending e h).2 in
  In (RoomConnect h LIVEKIT_URL (_create_token a ws) true) (trace st') /\
  count_events (is_disconnect_of h) (trace st') = 0%nat.
Proof.
  intros Hc Hp Hty messages st'. subst st' messages.
  set (u := LIVEKIT_URL). set (t := _create_token a ws).
  assert (Hfinal : room_left_connected h u t
                     (handle_device b ws
                        (start_msg a :: Text (Some (JObj items)) :: rest)
                        ending e h).2).
  { rewrite handle_device_unfold.
    assert (Hexit : room_left_connected h u t
                      (loop_exit b ws
                         (start_msg a :: Text (Some (JObj items)) :: rest)
                         ending e h)).
    { unfold loop_exit.
      assert (Hfirst : exists st1,
                 _handle_message (start_msg a) (loop_entry b ws e h)
                 = (Ok tt, st1) /\
                 room (session st1) = Some h /\
                 (h < next_handle st1)%nat /\
                 In (RoomConnect h u t true) (trace st1) /\
                 count_events (is_disconnect_of h) (trace st1) = 0%nat).
      { unfold start_msg. cbn [_handle_message].
        unfold msg_get, start_session. unfold_ops. cbn.
        destruct e as [cs ps ks ss]. cbn in Hc, Hp.
        destruct cs as [| [] cs]; try discriminate;
          destruct ps as [| [] ps]; try discriminate;
          destruct ss as [| [] ss]; cbn; eexists;
          (split; [reflexivity |]); cbn; repeat split; auto; tauto. }
      destruct Hfirst as (st1 & Hrun1 & Hroom & Hlt & Hin & Hcount).
      rewrite (guarded_loop_cons_ok ws _ _ ending _ st1 Hrun1).
      pose proof (restart_leaves_room items h u t st1 Hty Hroom Hlt Hin Hcount)
        as Hsecond.
      destruct (_handle_message (Text (Some (JObj items))) st1)
        as [[[] | x] st2] eqn:Hrun2; cbn [snd] in Hsecond.
      - rewrite (guarded_loop_cons_ok ws _ _ ending _ st2 Hrun2).
        apply guarded_loop_preserves;
          auto using start_session_left_connected,
            end_session_left_connected, process_audio_chunk_left_connected,
            send_ready_left_connected.
        intros lvl m _. apply logger_left_connected.
      - rewrite (raising_message_ends_loop ws _ rest ending _ _ _ Hrun2).
        cbn [snd]. destruct x; apply (logger_left_connected h u t _ _ st2 Hsecond). }
    pose proof (cleanup_left_connected h u t ws _ Hexit) as Hclean.
    destruct (cleanup ws _) as [[[] | x] st3]; exact Hclean. }
  destruct Hfinal as (_ & _ & Hin & Hcount). split; assumption.
Qed.

Lemma second_start_leaves_first_room_connected_witness :
  let st' := (handle_device (mkUMIBridge ∅) 7
                [start_msg (JStr "abc"); start_msg (JStr "xyz"); end_msg]
                PeerClosed quiet_env 0%nat).2 in
  In (RoomConnect 0%nat LIVEKIT_URL (_create_token (JStr "abc") 7) true)
    (trace st') /\
  count_events (is_disconnect_of 0%nat) (trace st') = 0%nat.
Proof.
  apply (second_start_leaves_first_room_connected (JStr "abc")
           [("type", JStr "start_session"); ("session_id", JStr "xyz")]
           [end_msg] PeerClosed (mkUMIBridge ∅) 7 quiet_env 0%nat);
    reflexivity.
Defined.
